(** * pitwall/deploy: the deployment pipeline of [deployer.go]

    A shallow embedding of [Deployer] and its six pipeline steps.  The
    scheduler (the Nomad [api] package), the job-file parser ([jobspec])
    and the clock are external: they are an interface ([Orchestration])
    over an abstract world, and every call the deployer makes to them is
    recorded, in order, in a trace of [Event]s. *)

From Stdlib Require Import ZArith String Ascii List Lia.
From stdpp Require Import base option strings gmap list.

Open Scope string_scope.
Open Scope Z_scope.
Open Scope list_scope.

(** ** Go values used by the package *)

(** A Go [error] value, identified with the text its [Error()] method
    returns; the nil error is [None] in [option error]. *)
Record error := errorString { Error : string }.

(** [time.Duration]: a count of nanoseconds. *)
Definition Duration := Z.
Definition Second : Duration := 1000000000.

(** ** [fmt] verbs, for string operands

    [Sprintf] below covers what the package uses: the operands are all
    strings, the verbs [%s] and [%v] print the operand as it is, [%%]
    prints a percent sign, and any other verb [c] applied to a string is
    a bad verb, which [fmt] renders as [%!c(string=operand)].  A verb
    with no operand left renders as [%!c(MISSING)] and operands left
    over as [%!(EXTRA string=a, string=b)]. *)
Module fmt.

Definition badVerb (c : ascii) (v : string) : string :=
  "%!" +:+ String c ("(string=" +:+ v +:+ ")").

Definition missing (c : ascii) : string :=
  "%!" +:+ String c "(MISSING)".

Fixpoint extraArgs (args : list string) : string :=
  match args with
  | [] => ""
  | [a] => "string=" +:+ a
  | a :: rest => "string=" +:+ a +:+ ", " +:+ extraArgs rest
  end.

Definition extra (args : list string) : string :=
  match args with
  | [] => ""
  | _ => "%!(EXTRA " +:+ extraArgs args +:+ ")"
  end.

Definition verb (c : ascii) (v : string) : string :=
  if (Ascii.eqb c "s" || Ascii.eqb c "v")%bool then v else badVerb c v.

Fixpoint Sprintf (format : string) (args : list string) : string :=
  match format with
  | EmptyString => extra args
  | String "%" EmptyString => "%!(NOVERB)" +:+ extra args
  | String "%" (String c rest) =>
      if Ascii.eqb c "%" then String "%" (Sprintf rest args)
      else match args with
           | [] => missing c +:+ Sprintf rest []
           | a :: args' => verb c a +:+ Sprintf rest args'
           end
  | String c rest => String c (Sprintf rest args)
  end.

Definition Errorf (format : string) (args : list string) : error :=
  errorString (Sprintf format args).

End fmt.

(** Substring test, the meaning of "the message contains the text". *)
Fixpoint contains (needle hay : string) : bool :=
  if String.prefix needle hay then true
  else match hay with
       | EmptyString => false
       | String _ rest => contains needle rest
       end.

(** ** The scheduler's data, as the pipeline reads and writes it

    These are the structs of the Nomad [api] package restricted to the
    fields [deployer.go] touches.  A Go pointer field that may be nil is
    an [option]. *)

Record Constraint := {
  LTarget : string;
  RTarget : string;
  Operand : string;
}.

(** [api.NewConstraint(left, operand, right)]. *)
Definition NewConstraint (left operand right : string) : Constraint :=
  {| LTarget := left; RTarget := right; Operand := operand |}.

Record Task := {
  Task_Name : string;
  (* map[string]interface{}; nil when the job file has no config block *)
  Task_Config : option (gmap string string);
}.

Record TaskGroup := {
  TaskGroup_Name : option string;   (* *string *)
  TaskGroup_Count : option Z;       (* *int *)
  TaskGroup_Tasks : list Task;
}.

Record Job := {
  Job_Region : option string;       (* *string *)
  Job_Datacenters : list string;
  Job_Constraints : list Constraint;
  Job_TaskGroups : list TaskGroup;
}.

(** [Job.AddDatacenter] and [Job.Constrain] append to the job's lists. *)
Definition AddDatacenter (dc : string) (j : Job) : Job :=
  {| Job_Region := Job_Region j;
     Job_Datacenters := Job_Datacenters j ++ [dc];
     Job_Constraints := Job_Constraints j;
     Job_TaskGroups := Job_TaskGroups j |}.

Definition Constrain (c : Constraint) (j : Job) : Job :=
  {| Job_Region := Job_Region j;
     Job_Datacenters := Job_Datacenters j;
     Job_Constraints := Job_Constraints j ++ [c];
     Job_TaskGroups := Job_TaskGroups j |}.

Definition set_Region (r : option string) (j : Job) : Job :=
  {| Job_Region := r;
     Job_Datacenters := Job_Datacenters j;
     Job_Constraints := Job_Constraints j;
     Job_TaskGroups := Job_TaskGroups j |}.

Definition set_TaskGroups (tgs : list TaskGroup) (j : Job) : Job :=
  {| Job_Region := Job_Region j;
     Job_Datacenters := Job_Datacenters j;
     Job_Constraints := Job_Constraints j;
     Job_TaskGroups := tgs |}.

Record JobPlanResponse := { JobModifyIndex : Z (* uint64 *) }.
Record JobRegisterResponse := { EvalID : string }.

Record Evaluation := {
  Evaluation_DeploymentID : string;
  Evaluation_Status : string;
  Evaluation_Type : string;
}.

Record Deployment := {
  Deployment_Status : string;
  Deployment_StatusDescription : string;
}.

Record QueryMeta := { LastIndex : Z (* uint64 *) }.

Record QueryOptions := {
  WaitIndex : Z;  (* uint64 *)
  AllowStale : bool;
  WaitTime : Duration;
}.

Record TaskEvent := {
  DriverError : string;
  DownloadError : string;
  ValidationError : string;
  SetupError : string;
  VaultError : string;
}.

Record TaskState := { Events : list TaskEvent }.

(** [TaskStates] is a Go map ranged over by [status]; the list is the
    order in which the range visits it (Go leaves that order open). *)
Record Allocation := { TaskStates : list (string * TaskState) }.

(** [nomad/structs] constants. *)
Definition JobTypeService : string := "service".
Definition DeploymentStatusRunning : string := "running".
Definition DeploymentStatusSuccessful : string := "successful".

(** [api.Config] and [api.Client]: what [connect] builds. *)
Record Config := { Config_Address : string; Config_Region : string }.

Definition ClientConfig (region address : string) (tlsEnabled : bool) : Config :=
  {| Config_Address :=
       fmt.Sprintf "%s://%s" [(if tlsEnabled then "https" else "http"); address];
     Config_Region := region |}.

Record Client := { Client_config : Config }.

(** ** The datacenter configuration

    Modelled from the spec: the declarations of [DcConfig] and
    [ServiceConfig] (section 3 of the specification: image, count,
    hostGroup, node, dcRegion, cpu, memory, environment, arguments,
    volumes; region, dc and a map from service name to service
    configuration).  The map holds pointers: [validate] writes the image
    through the entry it looked up, so the write is an update of the map
    entry. *)
Record ServiceConfig := {
  Image : string;
  Count : Z;   (* int *)
  HostGroup : string;
  Node : string;
  DcRegion : string;
  CPU : Z;
  Memory : Z;
  Environment : gmap string string;
  Arguments : list string;
  Volumes : list string;
}.

Definition set_Image (image : string) (s : ServiceConfig) : ServiceConfig :=
  {| Image := image; Count := Count s; HostGroup := HostGroup s;
     Node := Node s; DcRegion := DcRegion s; CPU := CPU s;
     Memory := Memory s; Environment := Environment s;
     Arguments := Arguments s; Volumes := Volumes s |}.

Record DcConfig := {
  Region : string;
  Dc : string;
  Services : gmap string ServiceConfig;
}.

Definition set_Service (name : string) (s : ServiceConfig) (c : DcConfig) : DcConfig :=
  {| Region := Region c; Dc := Dc c; Services := <[name := s]> (Services c) |}.

(** ** The deployer *)

Record Deployer := {
  root : string;
  dc : string;
  service : string;
  image : string;
  address : string;
  config : DcConfig;        (* *DcConfig, shared with the caller *)
  job : option Job;         (* *api.Job, nil until loadServiceConfig *)
  cli : option Client;      (* *api.Client, nil until connect *)
  jobModifyIndex : Z;       (* uint64 *)
  jobEvalID : string;
  jobDeploymentID : string;
}.

Definition NewDeployer (root dc service image : string) (config : DcConfig)
    (address : string) : Deployer :=
  {| root := root; dc := dc; service := service; image := image;
     address := address; config := config; job := None; cli := None;
     jobModifyIndex := 0; jobEvalID := ""; jobDeploymentID := "" |}.

Definition set_config (c : DcConfig) (d : Deployer) : Deployer :=
  {| root := root d; dc := dc d; service := service d; image := image d;
     address := address d; config := c; job := job d; cli := cli d;
     jobModifyIndex := jobModifyIndex d; jobEvalID := jobEvalID d;
     jobDeploymentID := jobDeploymentID d |}.

Definition set_job (j : option Job) (d : Deployer) : Deployer :=
  {| root := root d; dc := dc d; service := service d; image := image d;
     address := address d; config := config d; job := j; cli := cli d;
     jobModifyIndex := jobModifyIndex d; jobEvalID := jobEvalID d;
     jobDeploymentID := jobDeploymentID d |}.

Definition set_cli (c : option Client) (d : Deployer) : Deployer :=
  {| root := root d; dc := dc d; service := service d; image := image d;
     address := address d; config := config d; job := job d; cli := c;
     jobModifyIndex := jobModifyIndex d; jobEvalID := jobEvalID d;
     jobDeploymentID := jobDeploymentID d |}.

Definition set_jobModifyIndex (i : Z) (d : Deployer) : Deployer :=
  {| root := root d; dc := dc d; service := service d; image := image d;
     address := address d; config := config d; job := job d; cli := cli d;
     jobModifyIndex := i; jobEvalID := jobEvalID d;
     jobDeploymentID := jobDeploymentID d |}.

Definition set_jobEvalID (id : string) (d : Deployer) : Deployer :=
  {| root := root d; dc := dc d; service := service d; image := image d;
     address := address d; config := config d; job := job d; cli := cli d;
     jobModifyIndex := jobModifyIndex d; jobEvalID := id;
     jobDeploymentID := jobDeploymentID d |}.

Definition set_jobDeploymentID (id : string) (d : Deployer) : Deployer :=
  {| root := root d; dc := dc d; service := service d; image := image d;
     address := address d; config := config d; job := job d; cli := cli d;
     jobModifyIndex := jobModifyIndex d; jobEvalID := jobEvalID d;
     jobDeploymentID := id |}.

(** ** Effects

    Everything the deployer does to the outside, in the order it does
    it.  Log lines are not part of the model. *)
Inductive Event :=
| EParseFile (fn : string)
| ENewClient (c : Config)
| EValidate (j : option Job)
| EPlan (j : option Job) (diff : bool)
| EEnforceRegister (j : option Job) (modifyIndex : Z)
| EEvaluationInfo (evalID : string)
| ESleep (d : Duration)
| EDeploymentInfo (depID : string) (q : QueryOptions)
| EDeploymentAllocations (depID : string)
| EPrintf (out : string).

(** The external collaborators.  Each operation reads and advances an
    abstract world; a Go pair of a result and an error is a sum. *)
Class Orchestration (World : Type) := {
  (* jobspec.ParseFile *)
  ParseFile : string -> World -> (error + Job) * World;
  (* api.NewClient *)
  NewClient : Config -> World -> (error + Client) * World;
  (* Jobs().Validate; the response is ignored by the caller *)
  Jobs_Validate : Client -> option Job -> World -> option error * World;
  (* Jobs().Plan *)
  Jobs_Plan : Client -> option Job -> bool -> World -> (error + JobPlanResponse) * World;
  (* Jobs().EnforceRegister *)
  Jobs_EnforceRegister :
    Client -> option Job -> Z -> World -> (error + JobRegisterResponse) * World;
  (* Evaluations().Info *)
  Evaluations_Info : Client -> string -> World -> (error + Evaluation) * World;
  (* Deployments().Info *)
  Deployments_Info :
    Client -> string -> QueryOptions -> World -> (error + Deployment * QueryMeta) * World;
  (* Deployments().Allocations *)
  Deployments_Allocations :
    Client -> string -> World -> (error + list Allocation) * World;
  (* the package's own [warn], which renders one diagnostic text; its
     definition is not among the sources *)
  warn : string -> string;
}.

(** The state a step runs in: the deployer (the receiver [d]), the
    world, and the trace so far. *)
Record State (World : Type) := mkState {
  deployer : Deployer;
  world : World;
  trace : list Event;
}.
Arguments mkState {World}.
Arguments deployer {World}.
Arguments world {World}.
Arguments trace {World}.

(** The outcome of running a piece of the pipeline: it returns a value
    in a new state, the Go runtime panics (the process ends), or the
    model's loop budget is used up before the code returns. *)
Inductive result (S A : Type) :=
| Done (a : A) (s : S)
| Panic (why : string)
| OutOfFuel.
Arguments Done {S A}.
Arguments Panic {S A}.
Arguments OutOfFuel {S A}.

Definition M (S A : Type) : Type := S -> result S A.

Definition ret {S A} (a : A) : M S A := fun s => Done a s.

Definition bind {S A B} (m : M S A) (k : A -> M S B) : M S B :=
  fun s => match m s with
           | Done a s' => k a s'
           | Panic why => Panic why
           | OutOfFuel => OutOfFuel
           end.

Definition panic {S A} (why : string) : M S A := fun _ => Panic why.

Declare Scope go_scope.
Delimit Scope go_scope with go.
Notation "'let*' x ':=' m 'in' k" := (bind m (fun x => k))
  (at level 10, x name, m at level 100, k at level 200) : go_scope.
Notation "m ';;;' k" := (bind m (fun _ => k))
  (at level 100, k at level 200, right associativity) : go_scope.

Section Pipeline.
Context {World : Type} `{api : Orchestration World}.

Abbreviation St := (State World).
Local Open Scope go_scope.

(** *** Primitive actions on the state *)

Definition get_d : M St Deployer := fun s => Done (deployer s) s.

Definition modify_d (f : Deployer -> Deployer) : M St unit :=
  fun s => Done tt (mkState (f (deployer s)) (world s) (trace s)).

Definition emit (e : Event) : M St unit :=
  fun s => Done tt (mkState (deployer s) (world s) (trace s ++ [e])).

(** One call to a collaborator: record it, then let it answer. *)
Definition call {A} (e : Event) (op : World -> A * World) : M St A :=
  fun s => let '(a, w) := op (world s) in
           Done a (mkState (deployer s) w (trace s ++ [e])).

(** [d.cli]: a request made through a nil client dereferences it, and
    the process ends. *)
Definition the_cli : M St Client :=
  fun s => match cli (deployer s) with
           | Some c => Done c s
           | None => Panic "nil pointer dereference: d.cli"
           end.

(** *** checkServiceConfig *)

Definition checkServiceConfig : M St (option error) :=
  let* d := get_d in
  match Services (config d) !! service d with
  | Some _ => ret None
  | None =>
      ret (Some (fmt.Errorf "service %d not found in datacenter config"
                   [service d]))
  end.

(** *** plan *)

Definition plan : M St (option error) :=
  let* d := get_d in
  let* c := the_cli in
  let* r := call (EPlan (job d) false) (Jobs_Plan c (job d) false) in
  match r with
  | inl err => ret (Some err)
  | inr jp =>
      modify_d (set_jobModifyIndex (JobModifyIndex jp));;;
      ret None
  end.

(** *** getDeploymentID: the evaluation poll

    One fuel unit is one trip round the [for] loop. *)
Fixpoint getDeploymentID (fuel : nat) : M St (option error) :=
  match fuel with
  | O => fun _ => OutOfFuel
  | S fuel' =>
      let* d := get_d in
      let* c := the_cli in
      let* r := call (EEvaluationInfo (jobEvalID d))
                     (Evaluations_Info c (jobEvalID d)) in
      match r with
      | inl err => ret (Some err)
      | inr ev =>
          if negb (Evaluation_DeploymentID ev =? "")%string then
            modify_d (set_jobDeploymentID (Evaluation_DeploymentID ev));;;
            ret None
          else if ((Evaluation_Status ev =? "complete")%string
                   && negb (Evaluation_Type ev =? JobTypeService)%string)%bool
          then ret None
          else emit (ESleep Second);;; getDeploymentID fuel'
      end
  end.

(** *** register *)

Definition register (fuel : nat) : M St (option error) :=
  let* d := get_d in
  let* c := the_cli in
  let* r := call (EEnforceRegister (job d) (jobModifyIndex d))
                 (Jobs_EnforceRegister c (job d) (jobModifyIndex d)) in
  match r with
  | inl err => ret (Some err)
  | inr jr =>
      modify_d (set_jobEvalID (EvalID jr));;;
      let* e := getDeploymentID fuel in
      match e with
      | Some err => ret (Some err)
      | None => ret None
      end
  end.

(** *** status *)

Definition hasError (e : TaskEvent) : bool :=
  (negb (DriverError e =? "")%string
   || negb (DownloadError e =? "")%string
   || negb (ValidationError e =? "")%string
   || negb (SetupError e =? "")%string
   || negb (VaultError e =? "")%string)%bool.

(** The text one [fmt.Printf] call of the diagnostics loop writes. *)
Definition showEvent (e : TaskEvent) : string :=
  fmt.Sprintf "%s%s%s%s%s"
    [warn (DriverError e); warn (DownloadError e);
     warn (ValidationError e); warn (SetupError e); warn (VaultError e)].

(** The events the three nested [range] loops visit, in order. *)
Definition allEvents (al : list Allocation) : list TaskEvent :=
  a ← al; s ← TaskStates a; Events s.2.

Definition showErrors (al : list Allocation) : list Event :=
  (fun e => EPrintf (showEvent e)) <$> filter (fun e => hasError e = true) (allEvents al).

Definition emits (es : list Event) : M St unit :=
  fun s => Done tt (mkState (deployer s) (world s) (trace s ++ es)).

(** The body of the [for] loop, [q.WaitIndex] being the loop's only
    own state ([AllowStale] and [WaitTime] are never reassigned). *)
Fixpoint status_loop (fuel : nat) (depID : string) (c : Client) (waitIndex : Z)
    : M St (option error) :=
  match fuel with
  | O => fun _ => OutOfFuel
  | S fuel' =>
      let q := {| WaitIndex := waitIndex; AllowStale := true;
                  WaitTime := 5 * Second |} in
      let* r := call (EDeploymentInfo depID q) (Deployments_Info c depID q) in
      match r with
      | inl err => ret (Some err)
      | inr (dep, meta) =>
          if (Deployment_Status dep =? DeploymentStatusRunning)%string then
            status_loop fuel' depID c (LastIndex meta)
          else if (Deployment_Status dep =? DeploymentStatusSuccessful)%string then
            ret None
          else
            let* ar := call (EDeploymentAllocations depID)
                            (Deployments_Allocations c depID) in
            match ar with
            | inr al => emits (showErrors al)
            | inl _ => ret tt
            end;;;
            ret (Some (fmt.Errorf "deployment failed status: %s %s"
                         [Deployment_Status dep;
                          Deployment_StatusDescription dep]))
      end
  end.

Definition status (fuel : nat) : M St (option error) :=
  let* d := get_d in
  let depID := jobDeploymentID d in
  if (depID =? "")%string then ret None
  else
    let* c := the_cli in
    status_loop fuel depID c 1.

(** *** loadServiceConfig *)

Definition loadServiceConfig : M St (option error) :=
  let* d := get_d in
  let fn := fmt.Sprintf "%s/nomad/service/%s.nomad" [root d; service d] in
  let* r := call (EParseFile fn) (ParseFile fn) in
  let* r :=
    match r with
    | inl _ =>
        let fn := fmt.Sprintf "%s/nomad/system/%s.nomad" [root d; service d] in
        call (EParseFile fn) (ParseFile fn)
    | inr _ => ret r
    end in
  match r with
  | inl err => ret (Some err)
  | inr j =>
      modify_d (set_job (Some j));;;
      checkServiceConfig
  end.

(** *** connect *)

Definition connect : M St (option error) :=
  let* d := get_d in
  let addr := address d in
  let c := ClientConfig (Dc (config d)) addr false in
  let* r := call (ENewClient c) (NewClient c) in
  match r with
  | inl err => ret (Some err)
  | inr cl =>
      modify_d (set_cli (Some cl));;;
      ret None
  end.

(** *** validate

    The merge of the service configuration into the job is the pure
    function [merge]; [None] is a panic (a nil dereference or a write
    to a nil map).  Task groups and tasks are behind pointers, so what
    the loops assign is seen in the job. *)

Definition constrainIf (target value : string) (j : Job) : Job :=
  if negb (value =? "")%string
  then Constrain (NewConstraint target "=" value) j
  else j.

(** The body of the loop over [tg.Tasks]. *)
Definition mergeTask (service image : string) (ta : Task) : option Task :=
  if (Task_Name ta =? service)%string then
    cfg ← Task_Config ta;
    Some {| Task_Name := Task_Name ta;
            Task_Config := Some (<["image" := image]> cfg) |}
  else Some ta.

(** The body of the loop over [d.job.TaskGroups]. *)
Definition mergeTaskGroup (service image : string) (s : ServiceConfig)
    (tg : TaskGroup) : option TaskGroup :=
  name ← TaskGroup_Name tg;
  if (name =? service)%string then
    tasks ← mapM (mergeTask service image) (TaskGroup_Tasks tg);
    Some {| TaskGroup_Name := TaskGroup_Name tg;
            TaskGroup_Count :=
              if 0 <? Count s then Some (Count s) else TaskGroup_Count tg;
            TaskGroup_Tasks := tasks |}
  else Some tg.

(** Whether the loops reach the assignment [s.Image = d.image]: some
    task group named as the service holds a task named as the service. *)
Definition imageAssigned (service : string) (tgs : list TaskGroup) : bool :=
  existsb (fun tg =>
    (match TaskGroup_Name tg with
     | Some name => (name =? service)%string
     | None => false
     end
     && existsb (fun ta => (Task_Name ta =? service)%string)
          (TaskGroup_Tasks tg))%bool) tgs.

Definition merge (d : Deployer) : option (Job * DcConfig) :=
  j ← job d;
  let j := set_Region (Some (Region (config d))) j in
  let j := AddDatacenter (Dc (config d)) j in
  s ← Services (config d) !! service d;
  let j := constrainIf "${meta.dc_region}" (DcRegion s) j in
  let j := constrainIf "${meta.hostgroup}" (HostGroup s) j in
  let j := constrainIf "${meta.node}" (Node s) j in
  tgs ← mapM (mergeTaskGroup (service d) (image d) s) (Job_TaskGroups j);
  let cfg :=
    if imageAssigned (service d) (Job_TaskGroups j)
    then set_Service (service d) (set_Image (image d) s) (config d)
    else config d in
  Some (set_TaskGroups tgs j, cfg).

Definition validate : M St (option error) :=
  let* d := get_d in
  match merge d with
  | None => panic "nil dereference in validate"
  | Some (j, cfg) =>
      modify_d (fun d => set_config cfg (set_job (Some j) d));;;
      let* c := the_cli in
      let* err := call (EValidate (Some j)) (Jobs_Validate c (Some j)) in
      match err with
      | Some err => ret (Some err)
      | None => ret None
      end
  end.

(** *** runSteps and Go

    Modelled from the spec: [runSteps], whose definition is not among
    the sources.  Section 4.2: the pipeline is fail-fast sequential,
    each step runs only if all prior steps succeeded, the first
    failing step's error is returned immediately and no later step
    runs. *)
Fixpoint runSteps (steps : list (M St (option error))) : M St (option error) :=
  match steps with
  | [] => ret None
  | step :: rest =>
      let* err := step in
      match err with
      | Some e => ret (Some e)
      | None => runSteps rest
      end
  end.

(** [fuel] bounds each of the two polling loops. *)
Definition Go (fuel : nat) : M St (option error) :=
  let steps :=
    [ loadServiceConfig;
      connect;
      validate;
      plan;
      register fuel;
      status fuel ] in
  runSteps steps.

End Pipeline.

(** ** Vocabulary of the properties

    Predicates over the answers of the collaborators, used to state
    what the steps do. *)
Section Vocabulary.
Context {World : Type} `{api : Orchestration World}.

(** The scheduler's side of an enforced registration, as the comment
    on [register] words it: the job is registered only if the index
    passed matches the job's current index.  Otherwise the call
    returns an error and the scheduler's state stays as it was. *)
Definition enforces_index (currentIndex : World -> Z) : Prop :=
  forall c j i w,
    i <> currentIndex w ->
    exists e, Jobs_EnforceRegister c j i w = (inl e, w).

(** An evaluation that makes the loop sleep and go round again. *)
Definition pending (ev : Evaluation) : bool :=
  ((Evaluation_DeploymentID ev =? "")%string
   && negb ((Evaluation_Status ev =? "complete")%string
            && negb (Evaluation_Type ev =? JobTypeService)%string))%bool.

(** [polls c id k w w']: from world [w], [k] fetches in a row each
    answered with a pending evaluation lead to world [w']. *)
Inductive polls (c : Client) (id : string) : nat -> World -> World -> Prop :=
| polls_O w : polls c id O w w
| polls_S k w ev w1 w2 :
    Evaluations_Info c id w = (inr ev, w1) ->
    pending ev = true ->
    polls c id k w1 w2 ->
    polls c id (S k) w w2.

(** The three ways out of the loop: what the fetch answered, what the
    loop returns, and the deployer it leaves. *)
Inductive stops (d : Deployer) : error + Evaluation -> option error -> Deployer -> Prop :=
| stops_error e :
    stops d (inl e) (Some e) d
| stops_deployment ev :
    Evaluation_DeploymentID ev <> "" ->
    stops d (inr ev) None (set_jobDeploymentID (Evaluation_DeploymentID ev) d)
| stops_complete ev :
    Evaluation_DeploymentID ev = "" ->
    Evaluation_Status ev = "complete" ->
    Evaluation_Type ev <> JobTypeService ->
    stops d (inr ev) None d.

(** The trace of [k] rounds that ended in a sleep. *)
Fixpoint waits (id : string) (k : nat) : list Event :=
  match k with
  | O => []
  | S k' => EEvaluationInfo id :: ESleep Second :: waits id k'
  end.

(** The query options of one round of the status poll. *)
Definition query (waitIndex : Z) : QueryOptions :=
  {| WaitIndex := waitIndex; AllowStale := true; WaitTime := 5 * Second |}.

Definition failure (dep : Deployment) : error :=
  errorString ("deployment failed status: " +:+ Deployment_Status dep
               +:+ " " +:+ Deployment_StatusDescription dep).

(** [watches c depID k wi w wi' w' evs]: [k] rounds in a row that each
    read the status running take the poll from wait index [wi] and
    world [w] to wait index [wi'] and world [w'], with the queries
    [evs]. *)
Inductive watches (c : Client) (depID : string)
    : nat -> Z -> World -> Z -> World -> list Event -> Prop :=
| watches_O wi w : watches c depID O wi w wi w []
| watches_S k wi w dep meta w1 wi' w' evs :
    Deployments_Info c depID (query wi) w = (inr (dep, meta), w1) ->
    Deployment_Status dep = DeploymentStatusRunning ->
    watches c depID k (LastIndex meta) w1 wi' w' evs ->
    watches c depID (S k) wi w wi' w'
      (EDeploymentInfo depID (query wi) :: evs).

(** The jobs [validate] merges without a panic: every task group has
    a name, and in a group named as the service every task named as
    the service has a config map to write the image to. *)
Definition mergeable (service : string) (j : Job) : Prop :=
  Forall (fun tg =>
    exists name,
      TaskGroup_Name tg = Some name
      /\ (name = service ->
          Forall (fun ta => Task_Name ta = service -> is_Some (Task_Config ta))
            (TaskGroup_Tasks tg)))
    (Job_TaskGroups j).

(** The placement constraints of a service configuration, in the
    order [validate] adds them. *)
Definition placement (sc : ServiceConfig) : list Constraint :=
  (if (DcRegion sc =? "")%string then []
   else [{| LTarget := "${meta.dc_region}"; RTarget := DcRegion sc;
            Operand := "=" |}])
  ++ (if (HostGroup sc =? "")%string then []
      else [{| LTarget := "${meta.hostgroup}"; RTarget := HostGroup sc;
               Operand := "=" |}])
  ++ (if (Node sc =? "")%string then []
      else [{| LTarget := "${meta.node}"; RTarget := Node sc;
               Operand := "=" |}]).

End Vocabulary.

(** ** A scripted scheduler

    A concrete world to run the pipeline on: job files by path, a job
    modify index that a rival registration can move between plan and
    register, and scripted answers for the two polls (the last answer of
    a script repeats). *)
Module Sim.

Record World := {
  files : list (string * Job);
  jobIndex : Z;                 (* the scheduler's current modify index *)
  rival : bool;                 (* a rival registers right after our plan *)
  registered : option (option Job);
  evaluations : list Evaluation;
  deployments : list (Deployment * QueryMeta);
  allocations : error + list Allocation;
}.

Fixpoint lookupFile (fn : string) (fs : list (string * Job)) : option Job :=
  match fs with
  | [] => None
  | (name, j) :: rest => if (name =? fn)%string then Some j else lookupFile fn rest
  end.

Definition parseFile (fn : string) (w : World) : (error + Job) * World :=
  match lookupFile fn (files w) with
  | Some j => (inr j, w)
  | None => (inl (errorString ("open " +:+ fn +:+ ": no such file or directory")), w)
  end.

Definition planJob (w : World) : (error + JobPlanResponse) * World :=
  (inr {| JobModifyIndex := jobIndex w |},
   {| files := files w;
      jobIndex := if rival w then jobIndex w + 1 else jobIndex w;
      rival := false; registered := registered w;
      evaluations := evaluations w; deployments := deployments w;
      allocations := allocations w |}).

Definition enforceRegister (j : option Job) (i : Z) (w : World)
    : (error + JobRegisterResponse) * World :=
  if i =? jobIndex w then
    (inr {| EvalID := "eval-1" |},
     {| files := files w; jobIndex := jobIndex w + 1; rival := rival w;
        registered := Some j;
        evaluations := evaluations w; deployments := deployments w;
        allocations := allocations w |})
  else
    (inl (errorString "Enforcing job modify index: job already exists"), w).

Definition evaluationInfo (w : World) : (error + Evaluation) * World :=
  match evaluations w with
  | [] => (inl (errorString "eval not found"), w)
  | [ev] => (inr ev, w)
  | ev :: rest =>
      (inr ev,
       {| files := files w; jobIndex := jobIndex w; rival := rival w;
          registered := registered w;
          evaluations := rest; deployments := deployments w;
          allocations := allocations w |})
  end.

Definition deploymentInfo (w : World) : (error + Deployment * QueryMeta) * World :=
  match deployments w with
  | [] => (inl (errorString "deployment not found"), w)
  | [dm] => (inr dm, w)
  | dm :: rest =>
      (inr dm,
       {| files := files w; jobIndex := jobIndex w; rival := rival w;
          registered := registered w;
          evaluations := evaluations w; deployments := rest;
          allocations := allocations w |})
  end.

#[global] Instance api : Orchestration World := {|
  ParseFile := parseFile;
  NewClient := fun c w => (inr {| Client_config := c |}, w);
  Jobs_Validate := fun _ _ w => (None, w);
  Jobs_Plan := fun _ _ _ w => planJob w;
  Jobs_EnforceRegister := fun _ j i w => enforceRegister j i w;
  Evaluations_Info := fun _ _ w => evaluationInfo w;
  Deployments_Info := fun _ _ _ w => deploymentInfo w;
  Deployments_Allocations := fun _ _ w => (allocations w, w);
  warn := fun s => s;
|}.

(** A job file for the service [web], with a second task group. *)
Definition webJob : Job :=
  {| Job_Region := None; Job_Datacenters := []; Job_Constraints := [];
     Job_TaskGroups :=
       [ {| TaskGroup_Name := Some "web"; TaskGroup_Count := Some 1;
            TaskGroup_Tasks :=
              [ {| Task_Name := "web";
                   Task_Config := Some {["image" := "web:old"]} |};
                {| Task_Name := "sidecar"; Task_Config := None |} ] |};
         {| TaskGroup_Name := Some "cache"; TaskGroup_Count := Some 2;
            TaskGroup_Tasks :=
              [ {| Task_Name := "cache";
                   Task_Config := Some {["image" := "redis"]} |} ] |} ] |}.

Definition webConfig (count : Z) (hostGroup node dcRegion : string) : ServiceConfig :=
  {| Image := "web:static"; Count := count; HostGroup := hostGroup;
     Node := node; DcRegion := dcRegion; CPU := 64; Memory := 128;
     Environment := ∅; Arguments := []; Volumes := [] |}.

Definition dcConfig (s : ServiceConfig) : DcConfig :=
  {| Region := "r1"; Dc := "dc1"; Services := {["web" := s]} |}.

Definition running (i : Z) : Deployment * QueryMeta :=
  ({| Deployment_Status := "running"; Deployment_StatusDescription := "" |},
   {| LastIndex := i |}).

Definition successful (i : Z) : Deployment * QueryMeta :=
  ({| Deployment_Status := "successful";
      Deployment_StatusDescription := "Deployment completed successfully" |},
   {| LastIndex := i |}).

Definition failed (i : Z) : Deployment * QueryMeta :=
  ({| Deployment_Status := "failed";
      Deployment_StatusDescription := "Failed due to unhealthy allocations" |},
   {| LastIndex := i |}).

Definition pendingEval : Evaluation :=
  {| Evaluation_DeploymentID := ""; Evaluation_Status := "pending";
     Evaluation_Type := "service" |}.

Definition deployedEval : Evaluation :=
  {| Evaluation_DeploymentID := "dep-1"; Evaluation_Status := "complete";
     Evaluation_Type := "service" |}.

Definition batchEval : Evaluation :=
  {| Evaluation_DeploymentID := ""; Evaluation_Status := "complete";
     Evaluation_Type := "batch" |}.

Definition driverFailure (text : string) : list Allocation :=
  [ {| TaskStates :=
         [ ("web",
            {| Events :=
                 [ {| DriverError := ""; DownloadError := "";
                      ValidationError := ""; SetupError := "";
                      VaultError := "" |};
                   {| DriverError := text; DownloadError := "";
                      ValidationError := ""; SetupError := "";
                      VaultError := "" |} ] |}) ] |} ].

Definition world0 : World :=
  {| files := [("/srv/nomad/service/web.nomad", webJob)];
     jobIndex := 7; rival := false; registered := None;
     evaluations := [pendingEval; deployedEval];
     deployments := [running 10; running 11; successful 12];
     allocations := inr [] |}.

Definition deployer0 (s : ServiceConfig) : Deployer :=
  NewDeployer "/srv" "dc1" "web" "web:v2" (dcConfig s) "10.0.0.1:4646".

Definition start (s : ServiceConfig) (w : World) : State World :=
  mkState (deployer0 s) w [].

(** The state after loadServiceConfig and connect, holding job [j]. *)
Definition client : Client :=
  {| Client_config := ClientConfig "dc1" "10.0.0.1:4646" false |}.

Definition loaded (j : Job) (s : ServiceConfig) (w : World) : State World :=
  mkState (set_cli (Some client) (set_job (Some j) (deployer0 s))) w [].

(** The state after a registration that found deployment [dep-1]. *)
Definition deployed (w : World) : State World :=
  mkState (set_jobDeploymentID "dep-1"
             (set_jobEvalID "eval-1"
                (set_cli (Some client)
                   (set_job (Some webJob)
                      (deployer0 (webConfig 3 "app" "app1" "r1"))))))
    w [].

(** A job file with no task group named [web]. *)
Definition cacheJob : Job :=
  {| Job_Region := None; Job_Datacenters := []; Job_Constraints := [];
     Job_TaskGroups :=
       [ {| TaskGroup_Name := Some "cache"; TaskGroup_Count := Some 2;
            TaskGroup_Tasks :=
              [ {| Task_Name := "cache";
                   Task_Config := Some {["image" := "redis"]} |} ] |} ] |}.

(** A rival registers between our plan and our register. *)
Definition rivalWorld : World :=
  {| files := files world0; jobIndex := 7; rival := true;
     registered := None; evaluations := evaluations world0;
     deployments := deployments world0; allocations := inr [] |}.

(** The evaluation never leaves pending. *)
Definition stuckWorld : World :=
  {| files := files world0; jobIndex := 8; rival := false;
     registered := Some (Some webJob); evaluations := [pendingEval];
     deployments := []; allocations := inr [] |}.

Definition registered0 (w : World) : State World :=
  mkState (set_jobEvalID "eval-1"
             (set_cli (Some client)
                (set_job (Some webJob)
                   (deployer0 (webConfig 3 "app" "app1" "r1")))))
    w [].

(** The deployment fails after one running read; one event carries
    the driver error [boom]. *)
Definition failingWorld : World :=
  {| files := files world0; jobIndex := 8; rival := false;
     registered := Some (Some webJob); evaluations := [deployedEval];
     deployments := [running 10; failed 11];
     allocations := inr (driverFailure "boom") |}.

(** The deployment never leaves running. *)
Definition runningWorld : World :=
  {| files := files world0; jobIndex := 8; rival := false;
     registered := Some (Some webJob); evaluations := [deployedEval];
     deployments := [running 10]; allocations := inr [] |}.

(** The job is a batch job: its evaluation completes with no
    deployment. *)
Definition batchWorld : World :=
  {| files := files world0; jobIndex := 7; rival := false;
     registered := None; evaluations := [batchEval];
     deployments := []; allocations := inr [] |}.

(** The state after a plan that returned index 7. *)
Definition planned (w : World) : State World :=
  mkState (set_jobModifyIndex 7
             (set_cli (Some client)
                (set_job (Some webJob)
                   (deployer0 (webConfig 3 "app" "app1" "r1")))))
    w [].

End Sim.

(** ** cmd/tail.go: splitComma *)

Module strings.

(** [strings.Split(s, sep)] for a separator [sep] of one byte, which is
    how the package calls it: the pieces of [s] between the separators,
    one more than there are separators, so one empty piece for the
    empty string. *)
Fixpoint Split (s : string) (sep : ascii) : list string :=
  match s with
  | EmptyString => [""]
  | String c rest =>
      if Ascii.eqb c sep then "" :: Split rest sep
      else match Split rest sep with
           | p :: ps => String c p :: ps
           | [] => [String c ""]
           end
  end.

End strings.

(** The nil slice is the empty list: [strings.Split] never returns an
    empty slice for this separator, so the two are told apart. *)
Definition splitComma (s : string) : list string :=
  let parts := strings.Split s "," in
  match parts with
  | [p] => if (p =? "")%string then [] else parts
  | _ => parts
  end.

(** Vocabulary for [splitComma]: the pieces put back together with the
    separator between them, and the number of separators in a text. *)
Fixpoint join (sep : ascii) (parts : list string) : string :=
  match parts with
  | [] => ""
  | [p] => p
  | p :: rest => p +:+ String sep (join sep rest)
  end.

Fixpoint count_char (c : ascii) (s : string) : nat :=
  match s with
  | EmptyString => O
  | String x rest => (if Ascii.eqb x c then 1 else 0) + count_char c rest
  end.

(** ** Vocabulary of the traces *)

(** The calls that only read: the job files and the client set-up. *)
Definition reading (e : Event) : bool :=
  match e with
  | EParseFile _ | ENewClient _ => true
  | _ => false
  end.

(** What the two polls do: fetches, sleeps and diagnostics. *)
Definition polling (e : Event) : bool :=
  match e with
  | EEvaluationInfo _ | ESleep _ | EDeploymentInfo _ _
  | EDeploymentAllocations _ | EPrintf _ => true
  | _ => false
  end.

(** The one call that changes the cluster. *)
Definition registering (e : Event) : bool :=
  match e with
  | EEnforceRegister _ _ => true
  | _ => false
  end.

(** * Properties *)

(** ** Strings *)

Lemma append_cons (x : ascii) (a b : string) :
  String x a +:+ b = String x (a +:+ b).
Proof. reflexivity. Qed.

Lemma append_nil_l (a : string) : "" +:+ a = a.
Proof. reflexivity. Qed.

Lemma append_nil_r (a : string) : a +:+ "" = a.
Proof.
  induction a as [|x a IH]; [reflexivity | now rewrite append_cons, IH].
Qed.

Lemma append_assoc (a b c : string) : (a +:+ b) +:+ c = a +:+ (b +:+ c).
Proof.
  induction a as [|x a IH]; [reflexivity | now rewrite !append_cons, IH].
Qed.

Lemma length_append (a b : string) :
  String.length (a +:+ b) = (String.length a + String.length b)%nat.
Proof.
  induction a as [|x a IH]; [reflexivity | rewrite append_cons; simpl; now rewrite IH].
Qed.

Create Rewrite HintDb str.
#[local] Hint Rewrite append_cons append_nil_l append_nil_r append_assoc : str.

Lemma prefix_append (a b : string) : String.prefix a (a +:+ b) = true.
Proof.
  induction a as [|x a IH].
  - now destruct b.
  - rewrite append_cons. simpl.
    destruct (ascii_dec x x) as [_|ne]; [exact IH | now destruct ne].
Qed.

Lemma contains_cons (a : string) (x : ascii) (hay : string) :
  contains a (String x hay)
  = if String.prefix a (String x hay) then true else contains a hay.
Proof. reflexivity. Qed.

Lemma contains_prefix (a hay : string) :
  String.prefix a hay = true -> contains a hay = true.
Proof. intros H. destruct hay; unfold contains; now rewrite H. Qed.

Lemma contains_append (pre a post : string) :
  contains a (pre +:+ a +:+ post) = true.
Proof.
  induction pre as [|x pre IH].
  - rewrite append_nil_l. apply contains_prefix, prefix_append.
  - rewrite append_cons, contains_cons.
    destruct (String.prefix a (String x (pre +:+ a +:+ post))); [reflexivity | exact IH].
Qed.

(** What [fmt.Sprintf] gives for the two path formats and the two
    message formats of the package. *)
Lemma Sprintf_service_path (r n : string) :
  fmt.Sprintf "%s/nomad/service/%s.nomad" [r; n]
  = r +:+ "/nomad/service/" +:+ n +:+ ".nomad".
Proof. cbn. now autorewrite with str. Qed.

Lemma Sprintf_system_path (r n : string) :
  fmt.Sprintf "%s/nomad/system/%s.nomad" [r; n]
  = r +:+ "/nomad/system/" +:+ n +:+ ".nomad".
Proof. cbn. now autorewrite with str. Qed.

Lemma Sprintf_not_found (n : string) :
  fmt.Sprintf "service %d not found in datacenter config" [n]
  = "service %!d(string=" +:+ n +:+ ") not found in datacenter config".
Proof. cbn. unfold fmt.badVerb. now autorewrite with str. Qed.

Lemma Sprintf_deployment_failed (st descr : string) :
  fmt.Sprintf "deployment failed status: %s %s" [st; descr]
  = "deployment failed status: " +:+ st +:+ " " +:+ descr.
Proof. cbn. now autorewrite with str. Qed.

Section Properties.
Context {World : Type} `{api : Orchestration World}.

Abbreviation St := (State World).

Ltac unfold_go :=
  unfold bind, ret, call, emit, emits, get_d, modify_d, the_cli, panic.
Ltac run := unfold_go; simpl.

(** ** runSteps *)

Lemma runSteps_cons (step : M St (option error)) rest (s : St) :
  runSteps (step :: rest) s =
  match step s with
  | Done None s' => runSteps rest s'
  | Done (Some e) s' => Done (Some e) s'
  | Panic why => Panic why
  | OutOfFuel => OutOfFuel
  end.
Proof. simpl. unfold bind, ret. destruct (step s) as [[e|] s'| |]; reflexivity. Qed.

Lemma runSteps_last (step : M St (option error)) (s : St) :
  runSteps [step] s = step s.
Proof.
  rewrite runSteps_cons. destruct (step s) as [[e|] s'| |]; reflexivity.
Qed.

(** ** checkServiceConfig and loadServiceConfig *)

Lemma checkServiceConfig_eq (s : St) :
  checkServiceConfig s =
  Done (match Services (config (deployer s)) !! service (deployer s) with
        | Some _ => None
        | None =>
            Some (errorString
                    ("service %!d(string=" +:+ service (deployer s)
                     +:+ ") not found in datacenter config"))
        end) s.
Proof.
  unfold checkServiceConfig, fmt.Errorf. unfold_go.
  rewrite Sprintf_not_found.
  now destruct (Services (config (deployer s)) !! service (deployer s)).
Qed.

Lemma loadServiceConfig_eq (s : St) :
  let d := deployer s in
  let fn1 := root d +:+ "/nomad/service/" +:+ service d +:+ ".nomad" in
  let fn2 := root d +:+ "/nomad/system/" +:+ service d +:+ ".nomad" in
  loadServiceConfig s =
  match ParseFile fn1 (world s) with
  | (inr j, w1) =>
      checkServiceConfig
        (mkState (set_job (Some j) d) w1 (trace s ++ [EParseFile fn1]))
  | (inl _, w1) =>
      match ParseFile fn2 w1 with
      | (inr j, w2) =>
          checkServiceConfig
            (mkState (set_job (Some j) d) w2
               (trace s ++ [EParseFile fn1; EParseFile fn2]))
      | (inl e, w2) =>
          Done (Some e)
            (mkState d w2 (trace s ++ [EParseFile fn1; EParseFile fn2]))
      end
  end.
Proof.
  intros d fn1 fn2. unfold loadServiceConfig. unfold_go.
  rewrite Sprintf_service_path, Sprintf_system_path. fold d fn1 fn2.
  destruct (ParseFile fn1 (world s)) as [[e1|j] w1]; simpl.
  - destruct (ParseFile fn2 w1) as [[e2|j] w2]; simpl;
      rewrite <- app_assoc; reflexivity.
  - reflexivity.
Qed.


(** ** Go *)

(** C2.  [Go] runs loadServiceConfig, connect, validate, plan,
    register and status in that order.  A step runs only in the state
    the step before it left on returning nil; the first step that
    returns an error ends the run with that same error and the state
    that step left, so no later step has run; and when all six return
    nil, [Go] returns nil. *)
Theorem Go_fail_fast (fuel : nat) (s : St) :
  Go fuel s =
  match loadServiceConfig s with
  | Done None s1 =>
      match connect s1 with
      | Done None s2 =>
          match validate s2 with
          | Done None s3 =>
              match plan s3 with
              | Done None s4 =>
                  match register fuel s4 with
                  | Done None s5 =>
                      match status fuel s5 with
                      | Done None s6 => Done None s6
                      | Done (Some e) s6 => Done (Some e) s6
                      | other => other
                      end
                  | Done (Some e) s5 => Done (Some e) s5
                  | other => other
                  end
              | Done (Some e) s4 => Done (Some e) s4
              | other => other
              end
          | Done (Some e) s3 => Done (Some e) s3
          | other => other
          end
      | Done (Some e) s2 => Done (Some e) s2
      | other => other
      end
  | Done (Some e) s1 => Done (Some e) s1
  | other => other
  end.
Proof.
  unfold Go. cbv zeta.
  rewrite runSteps_cons.
  destruct (loadServiceConfig s) as [[e|] s1| |]; try reflexivity.
  rewrite runSteps_cons.
  destruct (connect s1) as [[e|] s2| |]; try reflexivity.
  rewrite runSteps_cons.
  destruct (validate s2) as [[e|] s3| |]; try reflexivity.
  rewrite runSteps_cons.
  destruct (plan s3) as [[e|] s4| |]; try reflexivity.
  rewrite runSteps_cons.
  destruct (register fuel s4) as [[e|] s5| |]; try reflexivity.
  rewrite runSteps_last.
  destruct (status fuel s5) as [[e|] s6| |]; reflexivity.
Qed.


(** ** plan and register *)

Lemma bind_error_eta (m : M St (option error)) (s : St) :
  bind m (fun e => match e with
                   | Some err => ret (Some err)
                   | None => ret None
                   end) s = m s.
Proof. unfold bind, ret. destruct (m s) as [[e|] s'| |]; reflexivity. Qed.

Lemma register_eq (fuel : nat) (s : St) c :
  cli (deployer s) = Some c ->
  let d := deployer s in
  let ev := EEnforceRegister (job d) (jobModifyIndex d) in
  register fuel s =
  match Jobs_EnforceRegister c (job d) (jobModifyIndex d) (world s) with
  | (inl e, w2) => Done (Some e) (mkState d w2 (trace s ++ [ev]))
  | (inr jr, w2) =>
      getDeploymentID fuel
        (mkState (set_jobEvalID (EvalID jr) d) w2 (trace s ++ [ev]))
  end.
Proof.
  intros Hc d ev. unfold register. unfold bind at 1 2 3.
  unfold get_d, the_cli, call. fold d in Hc |- *. rewrite Hc.
  cbn [deployer world trace].
  destruct (Jobs_EnforceRegister c (job d) (jobModifyIndex d) (world s))
    as [[e|jr] w2]; [reflexivity|].
  unfold bind at 1. unfold modify_d at 1.
  cbn [deployer world trace]. apply bind_error_eta.
Qed.

(** C1.  After a successful plan the deployer holds the modify index
    of the plan response, and the register step that follows calls
    EnforceRegister with the same job and exactly that index.  An
    error of that call is returned as it is, with no evaluation
    identifier taken and no poll started; in particular, against a
    scheduler that enforces the index, a current index other than the
    planned one makes register fail with the scheduler's error and
    leaves the scheduler unchanged. *)
Theorem register_enforces_planned_index (fuel : nat) (s : St) c jp w1 :
  cli (deployer s) = Some c ->
  Jobs_Plan c (job (deployer s)) false (world s) = (inr jp, w1) ->
  let d := deployer s in
  let s1 := mkState (set_jobModifyIndex (JobModifyIndex jp) d) w1
              (trace s ++ [EPlan (job d) false]) in
  let ev := EEnforceRegister (job d) (JobModifyIndex jp) in
  plan s = Done None s1
  /\ (forall e w2,
        Jobs_EnforceRegister c (job d) (JobModifyIndex jp) w1 = (inl e, w2) ->
        register fuel s1
        = Done (Some e) (mkState (deployer s1) w2 (trace s1 ++ [ev])))
  /\ (forall jr w2,
        Jobs_EnforceRegister c (job d) (JobModifyIndex jp) w1 = (inr jr, w2) ->
        register fuel s1
        = getDeploymentID fuel
            (mkState (set_jobEvalID (EvalID jr) (deployer s1)) w2
               (trace s1 ++ [ev])))
  /\ (forall currentIndex,
        enforces_index currentIndex ->
        currentIndex w1 <> JobModifyIndex jp ->
        exists e,
          Jobs_EnforceRegister c (job d) (JobModifyIndex jp) w1 = (inl e, w1)
          /\ register fuel s1
             = Done (Some e) (mkState (deployer s1) w1 (trace s1 ++ [ev]))).
Proof.
  intros Hc Hp d s1 ev.
  assert (R : register fuel s1 =
    match Jobs_EnforceRegister c (job d) (JobModifyIndex jp) w1 with
    | (inl e, w2) => Done (Some e) (mkState (deployer s1) w2 (trace s1 ++ [ev]))
    | (inr jr, w2) =>
        getDeploymentID fuel
          (mkState (set_jobEvalID (EvalID jr) (deployer s1)) w2 (trace s1 ++ [ev]))
    end).
  { exact (register_eq fuel s1 c Hc). }
  repeat split.
  - unfold plan. run. fold d in Hc, Hp |- *. rewrite Hc, Hp. reflexivity.
  - intros e w2 E. rewrite R, E. reflexivity.
  - intros jr w2 E. rewrite R, E. reflexivity.
  - intros currentIndex Henf Hne.
    destruct (Henf c (job d) (JobModifyIndex jp) w1) as [e E]; [congruence|].
    exists e. split; [exact E|]. rewrite R, E. reflexivity.
Qed.

(** ** getDeploymentID *)

Lemma getDeploymentID_step (fuel : nat) (s : St) c :
  cli (deployer s) = Some c ->
  let d := deployer s in
  let id := jobEvalID d in
  getDeploymentID (S fuel) s =
  match Evaluations_Info c id (world s) with
  | (inl e, w1) =>
      Done (Some e) (mkState d w1 (trace s ++ [EEvaluationInfo id]))
  | (inr ev, w1) =>
      if negb (Evaluation_DeploymentID ev =? "")%string then
        Done None (mkState (set_jobDeploymentID (Evaluation_DeploymentID ev) d)
                     w1 (trace s ++ [EEvaluationInfo id]))
      else if pending ev then
        getDeploymentID fuel
          (mkState d w1 (trace s ++ [EEvaluationInfo id; ESleep Second]))
      else Done None (mkState d w1 (trace s ++ [EEvaluationInfo id]))
  end.
Proof.
  intros Hc d id. simpl. unfold_go. fold d in Hc |- *. fold id. rewrite Hc.
  destruct (Evaluations_Info c id (world s)) as [[e|ev] w1]; [reflexivity|].
  unfold pending.
  destruct (Evaluation_DeploymentID ev =? "")%string; simpl; [|reflexivity].
  destruct ((Evaluation_Status ev =? "complete")%string
            && negb (Evaluation_Type ev =? JobTypeService)%string)%bool;
    simpl; [reflexivity|].
  rewrite <- app_assoc. reflexivity.
Qed.

Lemma stops_not_pending d ev r d' :
  stops d (inr ev) r d' -> pending ev = false.
Proof.
  unfold pending. inversion 1 as [|? Hne|? He Hs Ht]; subst.
  - apply String.eqb_neq in Hne. now rewrite Hne.
  - apply String.eqb_eq in He, Hs. apply String.eqb_neq in Ht.
    now rewrite He, Hs, Ht.
Qed.

Lemma not_pending_stops d ev :
  pending ev = false ->
  if negb (Evaluation_DeploymentID ev =? "")%string
  then stops d (inr ev) None (set_jobDeploymentID (Evaluation_DeploymentID ev) d)
  else stops d (inr ev) None d.
Proof.
  unfold pending. intros H.
  destruct (Evaluation_DeploymentID ev =? "")%string eqn:E; simpl in *.
  - apply negb_false_iff, andb_true_iff in H as [Hs Ht].
    apply negb_true_iff in Ht.
    apply String.eqb_eq in E, Hs. apply String.eqb_neq in Ht.
    now constructor.
  - constructor. now apply String.eqb_neq.
Qed.

Lemma getDeploymentID_Done (fuel : nat) : forall (s : St) c r s',
  cli (deployer s) = Some c ->
  getDeploymentID fuel s = Done r s' ->
  exists k w a w' d',
    (k < fuel)%nat
    /\ polls c (jobEvalID (deployer s)) k (world s) w
    /\ Evaluations_Info c (jobEvalID (deployer s)) w = (a, w')
    /\ stops (deployer s) a r d'
    /\ s' = mkState d' w'
              (trace s ++ waits (jobEvalID (deployer s)) k
               ++ [EEvaluationInfo (jobEvalID (deployer s))]).
Proof.
  induction fuel as [|fuel IH]; intros s c r s' Hc H; [discriminate|].
  rewrite (getDeploymentID_step fuel s c Hc) in H. cbv zeta in H.
  destruct (Evaluations_Info c (jobEvalID (deployer s)) (world s))
    as [[e|ev] w1] eqn:E.
  - injection H as <- <-.
    exists O, (world s), (inl e), w1, (deployer s).
    repeat split; [lia | constructor | exact E | constructor].
  - destruct (pending ev) eqn:P.
    + assert (D : (Evaluation_DeploymentID ev =? "")%string = true).
      { unfold pending in P. now apply andb_true_iff in P as [? _]. }
      rewrite D in H. simpl in H.
      apply (IH _ c) in H; [|exact Hc].
      destruct H as (k & w & a & w' & d' & Hk & Hp & Ha & Hs & ->).
      simpl in *.
      exists (S k), w, a, w', d'.
      repeat split; [lia | econstructor; eauto | exact Ha | exact Hs |].
      simpl. now rewrite <- app_assoc.
    + pose proof (not_pending_stops (deployer s) ev P) as Hs.
      destruct (negb (Evaluation_DeploymentID ev =? "")%string);
        injection H as <- <-;
        eexists O, (world s), (inr ev), w1, _;
        (repeat split; [lia | constructor | exact E | exact Hs]).
Qed.

Lemma getDeploymentID_polls (k : nat) : forall (fuel : nat) (s : St) c w a w' r d',
  cli (deployer s) = Some c ->
  (k < fuel)%nat ->
  polls c (jobEvalID (deployer s)) k (world s) w ->
  Evaluations_Info c (jobEvalID (deployer s)) w = (a, w') ->
  stops (deployer s) a r d' ->
  getDeploymentID fuel s
  = Done r (mkState d' w'
              (trace s ++ waits (jobEvalID (deployer s)) k
               ++ [EEvaluationInfo (jobEvalID (deployer s))])).
Proof.
  induction k as [|k IH]; intros fuel s c w a w' r d' Hc Hk Hp Ha Hs;
    (destruct fuel as [|fuel]; [lia|]);
    rewrite (getDeploymentID_step fuel s c Hc); cbv zeta.
  - inversion Hp; subst. rewrite Ha.
    inversion Hs as [e|ev Hne|ev He Hst Hty]; subst; [reflexivity| |].
    + apply String.eqb_neq in Hne. rewrite Hne. reflexivity.
    + pose proof (stops_not_pending _ _ _ _ Hs) as P. rewrite P.
      apply String.eqb_eq in He. rewrite He. reflexivity.
  - inversion Hp as [|k0 w0 ev w1 w2 E P Hp']; subst.
    rewrite E, P.
    assert (D : (Evaluation_DeploymentID ev =? "")%string = true).
    { unfold pending in P. now apply andb_true_iff in P as [? _]. }
    rewrite D. simpl.
    rewrite (IH fuel _ c w a w' r d'); simpl; auto; [|lia].
    now rewrite <- app_assoc.
Qed.

Lemma getDeploymentID_no_panic (fuel : nat) : forall (s : St) c why,
  cli (deployer s) = Some c ->
  getDeploymentID fuel s <> Panic why.
Proof.
  induction fuel as [|fuel IH]; intros s c why Hc; [discriminate|].
  rewrite (getDeploymentID_step fuel s c Hc). cbv zeta.
  destruct (Evaluations_Info c _ (world s)) as [[e|ev] w1]; [discriminate|].
  destruct (negb _); [discriminate|].
  destruct (pending ev); [|discriminate].
  apply (IH _ c). exact Hc.
Qed.

Lemma getDeploymentID_forever (fuel : nat) : forall (s : St) c,
  cli (deployer s) = Some c ->
  (forall k w,
     polls c (jobEvalID (deployer s)) k (world s) w ->
     exists ev w',
       Evaluations_Info c (jobEvalID (deployer s)) w = (inr ev, w')
       /\ pending ev = true) ->
  getDeploymentID fuel s = OutOfFuel.
Proof.
  induction fuel as [|fuel IH]; intros s c Hc Hall; [reflexivity|].
  rewrite (getDeploymentID_step fuel s c Hc). cbv zeta.
  destruct (Hall O (world s)) as (ev & w1 & E & P); [constructor|].
  rewrite E, P.
  assert (D : (Evaluation_DeploymentID ev =? "")%string = true).
  { unfold pending in P. now apply andb_true_iff in P as [? _]. }
  rewrite D. simpl.
  apply (IH _ c); [exact Hc|]. simpl.
  intros k w Hp. apply (Hall (S k)). econstructor; eauto.
Qed.


Lemma status_loop_step (fuel : nat) depID c wi (s : St) :
  status_loop (S fuel) depID c wi s =
  match Deployments_Info c depID (query wi) (world s) with
  | (inl e, w1) =>
      Done (Some e)
        (mkState (deployer s) w1 (trace s ++ [EDeploymentInfo depID (query wi)]))
  | (inr (dep, meta), w1) =>
      if (Deployment_Status dep =? DeploymentStatusRunning)%string then
        status_loop fuel depID c (LastIndex meta)
          (mkState (deployer s) w1
             (trace s ++ [EDeploymentInfo depID (query wi)]))
      else if (Deployment_Status dep =? DeploymentStatusSuccessful)%string then
        Done None
          (mkState (deployer s) w1
             (trace s ++ [EDeploymentInfo depID (query wi)]))
      else
        match Deployments_Allocations c depID w1 with
        | (inr al, w2) =>
            Done (Some (failure dep))
              (mkState (deployer s) w2
                 (trace s ++ [EDeploymentInfo depID (query wi);
                              EDeploymentAllocations depID] ++ showErrors al))
        | (inl _, w2) =>
            Done (Some (failure dep))
              (mkState (deployer s) w2
                 (trace s ++ [EDeploymentInfo depID (query wi);
                              EDeploymentAllocations depID]))
        end
  end.
Proof.
  cbn [status_loop]. unfold_go. fold (query wi). unfold failure.
  destruct (Deployments_Info c depID (query wi) (world s))
    as [[e|[dep meta]] w1]; [reflexivity|].
  cbn [deployer world trace].
  destruct (Deployment_Status dep =? DeploymentStatusRunning)%string;
    [reflexivity|].
  destruct (Deployment_Status dep =? DeploymentStatusSuccessful)%string;
    [reflexivity|].
  cbn [deployer world trace].
  destruct (Deployments_Allocations c depID w1) as [[e|al] w2];
    cbn [deployer world trace]; unfold fmt.Errorf;
    rewrite Sprintf_deployment_failed, <- ?app_assoc; reflexivity.
Qed.

Lemma status_eq (fuel : nat) (s : St) c :
  cli (deployer s) = Some c ->
  jobDeploymentID (deployer s) <> "" ->
  status fuel s = status_loop fuel (jobDeploymentID (deployer s)) c 1 s.
Proof.
  intros Hc Hne. unfold status. unfold_go.
  apply String.eqb_neq in Hne. rewrite Hne, Hc. reflexivity.
Qed.

Lemma status_loop_watches c depID k wi w wi' w' evs :
  watches c depID k wi w wi' w' evs ->
  forall (fuel : nat) d t,
    status_loop (k + fuel) depID c wi (mkState d w t)
    = status_loop fuel depID c wi' (mkState d w' (t ++ evs)).
Proof.
  induction 1 as [wi w|k wi w dep meta w1 wi' w' evs E R _ IH]; intros fuel d t.
  - now rewrite app_nil_r.
  - cbn [Nat.add]. rewrite status_loop_step. cbn [world deployer trace].
    rewrite E. apply String.eqb_eq in R. rewrite R.
    rewrite IH, <- app_assoc. reflexivity.
Qed.

(** What the diagnostics loop prints: one text per event that has an
    error field set, for every allocation, task state and event. *)
Lemma showErrors_spec (al : list Allocation) (out : string) :
  EPrintf out ∈ showErrors al <->
  exists a ts e,
    a ∈ al /\ ts ∈ TaskStates a /\ e ∈ Events ts.2
    /\ (DriverError e <> "" \/ DownloadError e <> ""
        \/ ValidationError e <> "" \/ SetupError e <> ""
        \/ VaultError e <> "")
    /\ out = warn (DriverError e) +:+ warn (DownloadError e)
             +:+ warn (ValidationError e) +:+ warn (SetupError e)
             +:+ warn (VaultError e).
Proof.
  assert (HE : forall e, hasError e = true <->
    (DriverError e <> "" \/ DownloadError e <> ""
     \/ ValidationError e <> "" \/ SetupError e <> ""
     \/ VaultError e <> "")).
  { intros e. unfold hasError.
    rewrite !orb_true_iff, !negb_true_iff, !String.eqb_neq. tauto. }
  assert (HS : forall e, showEvent e =
    warn (DriverError e) +:+ warn (DownloadError e)
    +:+ warn (ValidationError e) +:+ warn (SetupError e)
    +:+ warn (VaultError e)).
  { intros e. unfold showEvent. cbn. now autorewrite with str. }
  unfold showErrors, allEvents.
  rewrite list_elem_of_fmap. split.
  - intros (e & Heq & Hin). injection Heq as ->.
    apply list_elem_of_filter in Hin as [Herr Hin].
    apply list_elem_of_bind in Hin as (a & Hin & Ha).
    apply list_elem_of_bind in Hin as (ts & Hin & Hts).
    exists a, ts, e. rewrite <- HE. auto.
  - intros (a & ts & e & Ha & Hts & He & Herr & ->).
    exists e. split; [now rewrite HS|].
    apply list_elem_of_filter. split; [now apply HE|].
    apply list_elem_of_bind. exists a. split; [|exact Ha].
    apply list_elem_of_bind. exists ts. split; [exact He | exact Hts].
Qed.

(** C3 (as amended).  When a round of the status poll, after any
    number of rounds that read running, reads a status that is neither
    running nor successful, the step returns one error whose text is
    [deployment failed status: STATUS DESCRIPTION].  The diagnostics
    are not part of the error: for every event of every task state of
    every allocation with a driver, download, validation, setup or
    vault error set, the five fields, each rendered by [warn], are
    written to standard output before the error is returned.  If the
    fetch of the allocations fails, nothing is written and the same
    error is returned. *)
Theorem status_failure_report (fuel k : nat) (s : St) c wi w dep meta w1
    (evs : list Event) :
  let depID := jobDeploymentID (deployer s) in
  depID <> "" ->
  cli (deployer s) = Some c ->
  watches c depID k 1 (world s) wi w evs ->
  Deployments_Info c depID (query wi) w = (inr (dep, meta), w1) ->
  Deployment_Status dep <> DeploymentStatusRunning ->
  Deployment_Status dep <> DeploymentStatusSuccessful ->
  (k < fuel)%nat ->
  let seen := (evs ++ [EDeploymentInfo depID (query wi);
                       EDeploymentAllocations depID])%list in
  match Deployments_Allocations c depID w1 with
  | (inr al, w2) =>
      status fuel s
      = Done (Some (failure dep))
          (mkState (deployer s) w2 (trace s ++ seen ++ showErrors al))
      /\ forall out,
           EPrintf out ∈ showErrors al <->
           exists a ts e,
             a ∈ al /\ ts ∈ TaskStates a /\ e ∈ Events ts.2
             /\ (DriverError e <> "" \/ DownloadError e <> ""
                 \/ ValidationError e <> "" \/ SetupError e <> ""
                 \/ VaultError e <> "")
             /\ out = warn (DriverError e) +:+ warn (DownloadError e)
                      +:+ warn (ValidationError e) +:+ warn (SetupError e)
                      +:+ warn (VaultError e)
  | (inl _, w2) =>
      status fuel s
      = Done (Some (failure dep)) (mkState (deployer s) w2 (trace s ++ seen))
  end.
Proof.
  intros depID Hne Hc Hw E Hr Hs Hk seen.
  assert (R : status fuel s =
    status_loop (S (fuel - S k)) depID c wi
      (mkState (deployer s) w (trace s ++ evs))).
  { rewrite (status_eq fuel s c Hc Hne). fold depID.
    replace fuel with (k + S (fuel - S k))%nat at 1 by lia.
    destruct s as [d w0 t].
    exact (status_loop_watches c depID k 1 w0 wi w evs Hw _ d t). }
  rewrite R, status_loop_step. cbn [world deployer trace]. rewrite E.
  apply String.eqb_neq in Hr, Hs. rewrite Hr, Hs.
  destruct (Deployments_Allocations c depID w1) as [[e|al] w2].
  - unfold seen. now rewrite <- app_assoc.
  - split; [|apply showErrors_spec].
    unfold seen. now rewrite <- !app_assoc.
Qed.

(** C7.  With no deployment identifier the status step returns nil
    and leaves the state, and so the trace, as it was: no query is
    made.  With one, when the reads are running, running, successful,
    the step returns nil after the third read; the first query has
    wait index 1 and the two that follow have the last index of the
    read before them, and all three allow stale reads and wait at most
    five seconds. *)
Theorem status_running_running_successful (fuel : nat) (s : St) :
  let depID := jobDeploymentID (deployer s) in
  let q := fun i => {| WaitIndex := i; AllowStale := true;
                       WaitTime := 5 * Second |} in
  (depID = "" -> status fuel s = Done None s)
  /\ (forall c dep1 m1 w1 dep2 m2 w2 dep3 m3 w3,
        depID <> "" ->
        cli (deployer s) = Some c ->
        Deployments_Info c depID (q 1) (world s) = (inr (dep1, m1), w1) ->
        Deployment_Status dep1 = "running" ->
        Deployments_Info c depID (q (LastIndex m1)) w1 = (inr (dep2, m2), w2) ->
        Deployment_Status dep2 = "running" ->
        Deployments_Info c depID (q (LastIndex m2)) w2 = (inr (dep3, m3), w3) ->
        Deployment_Status dep3 = "successful" ->
        (3 <= fuel)%nat ->
        status fuel s
        = Done None
            (mkState (deployer s) w3
               (trace s ++ [EDeploymentInfo depID (q 1);
                            EDeploymentInfo depID (q (LastIndex m1));
                            EDeploymentInfo depID (q (LastIndex m2))]))).
Proof.
  intros depID q. split.
  - intros He. unfold status. unfold_go. fold depID. now rewrite He.
  - intros c dep1 m1 w1 dep2 m2 w2 dep3 m3 w3 Hne Hc E1 R1 E2 R2 E3 R3 Hf.
    rewrite (status_eq fuel s c Hc Hne). fold depID.
    destruct fuel as [|[|[|fuel]]]; try lia.
    change q with query in *.
    rewrite status_loop_step, E1, R1. cbn [String.eqb Ascii.eqb Bool.eqb].
    change (("running" =? DeploymentStatusRunning)%string) with true.
    cbv iota.
    rewrite status_loop_step. cbn [world deployer trace]. rewrite E2, R2.
    change (("running" =? DeploymentStatusRunning)%string) with true.
    cbv iota.
    rewrite status_loop_step. cbn [world deployer trace]. rewrite E3, R3.
    change (("successful" =? DeploymentStatusRunning)%string) with false.
    change (("successful" =? DeploymentStatusSuccessful)%string) with true.
    cbv iota. now rewrite <- !app_assoc.
Qed.

(** ** validate *)

Lemma mergeTask_Some service image ta ta' :
  mergeTask service image ta = Some ta' ->
  Task_Name ta' = Task_Name ta
  /\ (Task_Name ta = service ->
      exists cfg, Task_Config ta = Some cfg
                  /\ Task_Config ta' = Some (<["image" := image]> cfg))
  /\ (Task_Name ta <> service -> ta' = ta).
Proof.
  unfold mergeTask.
  destruct (Task_Name ta =? service)%string eqn:E.
  - apply String.eqb_eq in E.
    destruct (Task_Config ta) as [cfg|]; simpl; [|discriminate].
    intros [= <-]. simpl. repeat split; [eauto | congruence].
  - apply String.eqb_neq in E. intros [= <-].
    repeat split; congruence.
Qed.

Lemma mergeTask_total service image ta :
  (Task_Name ta = service -> is_Some (Task_Config ta)) ->
  is_Some (mergeTask service image ta).
Proof.
  unfold mergeTask. intros H.
  destruct (Task_Name ta =? service)%string eqn:E; [|eauto].
  apply String.eqb_eq in E. destruct (H E) as [cfg ->]. simpl. eauto.
Qed.

Lemma mergeTaskGroup_Some service image sc tg tg' :
  mergeTaskGroup service image sc tg = Some tg' ->
  TaskGroup_Name tg' = TaskGroup_Name tg
  /\ (TaskGroup_Name tg = Some service ->
      TaskGroup_Count tg'
      = (if 0 <? Count sc then Some (Count sc) else TaskGroup_Count tg)
      /\ Forall2 (fun ta ta' => mergeTask service image ta = Some ta')
           (TaskGroup_Tasks tg) (TaskGroup_Tasks tg'))
  /\ (TaskGroup_Name tg <> Some service -> tg' = tg).
Proof.
  unfold mergeTaskGroup.
  destruct (TaskGroup_Name tg) as [name|] eqn:N; simpl; [|discriminate].
  destruct (name =? service)%string eqn:E.
  - apply String.eqb_eq in E. subst name.
    destruct (mapM _ (TaskGroup_Tasks tg)) as [tasks|] eqn:T; simpl;
      [|discriminate].
    intros [= <-]. simpl. apply mapM_Some in T.
    repeat split; [exact T | congruence].
  - apply String.eqb_neq in E. intros [= <-].
    repeat split; congruence.
Qed.

Lemma mergeTaskGroup_total service image sc tg :
  (exists name,
     TaskGroup_Name tg = Some name
     /\ (name = service ->
         Forall (fun ta => Task_Name ta = service -> is_Some (Task_Config ta))
           (TaskGroup_Tasks tg))) ->
  is_Some (mergeTaskGroup service image sc tg).
Proof.
  intros (name & N & H). unfold mergeTaskGroup. rewrite N. simpl.
  destruct (name =? service)%string eqn:E; [|eauto].
  apply String.eqb_eq in E.
  destruct (mapM_is_Some_2 (mergeTask service image) (TaskGroup_Tasks tg))
    as [tasks ->]; [|simpl; eauto].
  eapply Forall_impl; [exact (H E)|].
  intros ta Hta. apply mergeTask_total, Hta.
Qed.

Lemma constrainIf_constraints target value j :
  Job_Constraints (constrainIf target value j)
  = Job_Constraints j
    ++ (if (value =? "")%string then []
        else [{| LTarget := target; RTarget := value; Operand := "=" |}]).
Proof.
  unfold constrainIf. destruct (value =? "")%string; simpl;
    [now rewrite app_nil_r | reflexivity].
Qed.

Lemma constrainIf_other target value j :
  Job_Region (constrainIf target value j) = Job_Region j
  /\ Job_Datacenters (constrainIf target value j) = Job_Datacenters j
  /\ Job_TaskGroups (constrainIf target value j) = Job_TaskGroups j.
Proof. unfold constrainIf. destruct (negb _); simpl; auto. Qed.

(** What [validate] does on a mergeable job: the merged job, the
    configuration it leaves, and the one call it makes. *)
Lemma validate_run (s : St) c j sc :
  let d := deployer s in
  job d = Some j ->
  Services (config d) !! service d = Some sc ->
  cli d = Some c ->
  mergeable (service d) j ->
  exists tgs' err w',
    Forall2 (fun tg tg' => mergeTaskGroup (service d) (image d) sc tg = Some tg')
      (Job_TaskGroups j) tgs'
    /\ let j' := {| Job_Region := Some (Region (config d));
                    Job_Datacenters := Job_Datacenters j ++ [Dc (config d)];
                    Job_Constraints := Job_Constraints j ++ placement sc;
                    Job_TaskGroups := tgs' |} in
       let cfg := if imageAssigned (service d) (Job_TaskGroups j)
                  then set_Service (service d) (set_Image (image d) sc) (config d)
                  else config d in
       Jobs_Validate c (Some j') (world s) = (err, w')
       /\ validate s
          = Done err (mkState (set_config cfg (set_job (Some j') d)) w'
                        (trace s ++ [EValidate (Some j')])).
Proof.
  intros d Hj Hs Hc Hm.
  destruct (mapM_is_Some_2 (mergeTaskGroup (service d) (image d) sc)
              (Job_TaskGroups j)) as [tgs' T].
  { eapply Forall_impl; [exact Hm|]. intros tg. apply mergeTaskGroup_total. }
  set (j' := {| Job_Region := Some (Region (config d));
                Job_Datacenters := Job_Datacenters j ++ [Dc (config d)];
                Job_Constraints := Job_Constraints j ++ placement sc;
                Job_TaskGroups := tgs' |}).
  set (cfg := if imageAssigned (service d) (Job_TaskGroups j)
              then set_Service (service d) (set_Image (image d) sc) (config d)
              else config d).
  assert (M : merge d = Some (j', cfg)).
  { unfold merge. rewrite Hj. simpl. rewrite Hs. simpl.
    set (j3 := constrainIf "${meta.node}" _ _).
    assert (G : Job_TaskGroups j3 = Job_TaskGroups j).
    { unfold j3.
      rewrite (proj2 (proj2 (constrainIf_other _ _ _))).
      rewrite (proj2 (proj2 (constrainIf_other _ _ _))).
      rewrite (proj2 (proj2 (constrainIf_other _ _ _))). reflexivity. }
    rewrite G, T. simpl. f_equal. f_equal.
    unfold set_TaskGroups, j'. f_equal.
    - unfold j3.
      rewrite (proj1 (constrainIf_other _ _ _)).
      rewrite (proj1 (constrainIf_other _ _ _)).
      rewrite (proj1 (constrainIf_other _ _ _)). reflexivity.
    - unfold j3.
      rewrite (proj1 (proj2 (constrainIf_other _ _ _))).
      rewrite (proj1 (proj2 (constrainIf_other _ _ _))).
      rewrite (proj1 (proj2 (constrainIf_other _ _ _))). reflexivity.
    - unfold j3. rewrite !constrainIf_constraints. simpl.
      unfold placement. now rewrite <- !app_assoc. }
  destruct (Jobs_Validate c (Some j') (world s)) as [err w'] eqn:V.
  exists tgs', err, w'. split; [now apply mapM_Some|].
  cbv zeta. fold j' cfg. split; [exact V|].
  unfold validate. unfold_go. fold d. rewrite M.
  cbn [deployer world trace cli set_config set_job]. fold d. rewrite Hc.
  cbn [deployer world trace]. rewrite V.
  destruct err; reflexivity.
Qed.

Lemma Forall2_elem_of_r {A B} (P : A -> B -> Prop) (l : list A) (k : list B) y :
  Forall2 P l k -> y ∈ k -> exists x, x ∈ l /\ P x y.
Proof.
  induction 1 as [|x y' l k HP _ IH]; intros Hy.
  - now apply elem_of_nil in Hy.
  - apply elem_of_cons in Hy as [->|Hy].
    + exists x. split; [left | exact HP].
    + destruct (IH Hy) as (x' & Hx' & HP'). exists x'. split; [now right | exact HP'].
Qed.

Lemma imageAssigned_true service tgs :
  imageAssigned service tgs = true <->
  exists tg ta,
    tg ∈ tgs /\ TaskGroup_Name tg = Some service
    /\ ta ∈ TaskGroup_Tasks tg /\ Task_Name ta = service.
Proof.
  unfold imageAssigned. rewrite existsb_exists. split.
  - intros (tg & Hin & H). apply andb_true_iff in H as [Hn Ht].
    apply existsb_exists in Ht as (ta & Hta & Hname).
    destruct (TaskGroup_Name tg) as [name|] eqn:N; [|discriminate].
    apply String.eqb_eq in Hn, Hname. subst name.
    exists tg, ta. rewrite !list_elem_of_In. auto.
  - intros (tg & ta & Hin & N & Hta & Hname).
    exists tg. rewrite <- list_elem_of_In. split; [exact Hin|].
    rewrite N. apply andb_true_iff. split; [now apply String.eqb_eq|].
    apply existsb_exists. exists ta. rewrite <- list_elem_of_In.
    split; [exact Hta | now apply String.eqb_eq].
Qed.

(** C4 (as amended).  On a job it can merge, [validate] returns, and
    the job it leaves has the constraints it had followed by one
    equality constraint for each of dcRegion (on [${meta.dc_region}]),
    hostGroup (on [${meta.hostgroup}]) and node (on [${meta.node}])
    that is not empty, in that order, and none for an empty one.  The
    constraints go on the job itself, whatever its task groups are
    named. *)
Theorem validate_placement_constraints (s : St) c j sc :
  let d := deployer s in
  job d = Some j ->
  Services (config d) !! service d = Some sc ->
  cli d = Some c ->
  mergeable (service d) j ->
  exists r s' j',
    validate s = Done r s'
    /\ job (deployer s') = Some j'
    /\ Job_Constraints j'
       = Job_Constraints j
         ++ (if (DcRegion sc =? "")%string then []
             else [NewConstraint "${meta.dc_region}" "=" (DcRegion sc)])
         ++ (if (HostGroup sc =? "")%string then []
             else [NewConstraint "${meta.hostgroup}" "=" (HostGroup sc)])
         ++ (if (Node sc =? "")%string then []
             else [NewConstraint "${meta.node}" "=" (Node sc)]).
Proof.
  intros d Hj Hs Hc Hm.
  destruct (validate_run s c j sc Hj Hs Hc Hm)
    as (tgs' & err & w' & _ & _ & V).
  eexists _, _, _. split; [exact V|]. split; reflexivity.
Qed.

(** C5 (as amended).  On a job it can merge, [validate] returns.  In
    the job it leaves, every task named as the service in a task group
    named as the service has the deployer's image under [image] in its
    config.  If the job has such a task, the service's entry in the
    datacenter configuration has the deployer's image as well;  if it
    has none, the configuration is left as it was, with the image it
    had. *)
Theorem validate_image_overwrite (s : St) c j sc :
  let d := deployer s in
  job d = Some j ->
  Services (config d) !! service d = Some sc ->
  cli d = Some c ->
  mergeable (service d) j ->
  let hit :=
    exists tg ta,
      tg ∈ Job_TaskGroups j /\ TaskGroup_Name tg = Some (service d)
      /\ ta ∈ TaskGroup_Tasks tg /\ Task_Name ta = service d in
  exists r s' j',
    validate s = Done r s'
    /\ job (deployer s') = Some j'
    /\ (forall tg' ta',
          tg' ∈ Job_TaskGroups j' ->
          TaskGroup_Name tg' = Some (service d) ->
          ta' ∈ TaskGroup_Tasks tg' ->
          Task_Name ta' = service d ->
          exists cfg, Task_Config ta' = Some cfg
                      /\ cfg !! "image" = Some (image d))
    /\ (hit ->
        Services (config (deployer s')) !! service d
        = Some (set_Image (image d) sc))
    /\ (~ hit -> config (deployer s') = config d).
Proof.
  intros d Hj Hs Hc Hm hit.
  destruct (validate_run s c j sc Hj Hs Hc Hm)
    as (tgs' & err & w' & F & _ & V).
  eexists _, _, _. split; [exact V|]. split; [reflexivity|].
  subst hit d.
  cbn [deployer job config set_config set_job Job_TaskGroups] in *.
  split; [|split].
  - intros tg' ta' Htg' N' Hta' Hname'.
    destruct (Forall2_elem_of_r _ _ _ _ F Htg') as (tg & _ & G).
    apply mergeTaskGroup_Some in G as (N & G & _).
    rewrite N in N'. destruct (G N') as [_ T].
    destruct (Forall2_elem_of_r _ _ _ _ T Hta') as (ta & _ & K).
    apply mergeTask_Some in K as (Hn & K & _).
    rewrite Hn in Hname'. destruct (K Hname') as (cfg & _ & ->).
    eexists. split; [reflexivity|]. apply lookup_insert_eq.
  - intros H. apply imageAssigned_true in H. rewrite H.
    simpl. apply lookup_insert_eq.
  - intros H.
    destruct (imageAssigned (service (deployer s)) (Job_TaskGroups j)) eqn:I;
      [|reflexivity].
    apply imageAssigned_true in I. contradiction.
Qed.

(** C8.  On a job it can merge, [validate] returns, and in the job it
    leaves the task groups are those of the job it was given, in the
    same order and with the same names: a task group named as the
    service has the count of the service configuration when that
    count is above zero (so 3 gives 3) and keeps its own count
    otherwise (so 0 keeps it); a task group with another name keeps
    its count. *)
Theorem validate_count_override (s : St) c j sc :
  let d := deployer s in
  job d = Some j ->
  Services (config d) !! service d = Some sc ->
  cli d = Some c ->
  mergeable (service d) j ->
  exists r s' j',
    validate s = Done r s'
    /\ job (deployer s') = Some j'
    /\ Forall2 (fun tg tg' =>
         TaskGroup_Name tg' = TaskGroup_Name tg
         /\ (TaskGroup_Name tg = Some (service d) -> 0 < Count sc ->
             TaskGroup_Count tg' = Some (Count sc))
         /\ (TaskGroup_Name tg = Some (service d) -> Count sc <= 0 ->
             TaskGroup_Count tg' = TaskGroup_Count tg)
         /\ (TaskGroup_Name tg <> Some (service d) ->
             TaskGroup_Count tg' = TaskGroup_Count tg))
       (Job_TaskGroups j) (Job_TaskGroups j').
Proof.
  intros d Hj Hs Hc Hm.
  destruct (validate_run s c j sc Hj Hs Hc Hm)
    as (tgs' & err & w' & F & _ & V).
  eexists _, _, _. split; [exact V|]. split; [reflexivity|].
  cbn [Job_TaskGroups].
  eapply Forall2_impl; [exact F|].
  intros tg tg' G. apply mergeTaskGroup_Some in G as (N & G & O).
  split; [exact N|]. repeat split.
  - intros Hn Hpos. destruct (G Hn) as [-> _].
    apply Z.ltb_lt in Hpos. now rewrite Hpos.
  - intros Hn Hle. destruct (G Hn) as [-> _].
    destruct (0 <? Count sc) eqn:E; [apply Z.ltb_lt in E; lia | reflexivity].
  - intros Hn. now rewrite (O Hn).
Qed.

End Properties.

(** * Runs on the scripted scheduler *)



(** ** Go, end to end *)

Example Go_deploys_web :
  exists s',
    Go 5 (Sim.start (Sim.webConfig 3 "app" "app1" "r1") Sim.world0)
    = Done None s'
    /\ jobDeploymentID (deployer s') = "dep-1"
    /\ Sim.registered (world s') = Some (job (deployer s')).
Proof. eexists. split; [vm_compute; reflexivity|]. split; reflexivity. Qed.

Example Go_rival_registration :
  exists s',
    Go 5 (Sim.start (Sim.webConfig 3 "app" "app1" "r1") Sim.rivalWorld)
    = Done (Some (errorString "Enforcing job modify index: job already exists")) s'
    /\ Sim.registered (world s') = None
    /\ last (trace s') = Some (EEnforceRegister (job (deployer s')) 7).
Proof. eexists. split; [vm_compute; reflexivity|]. split; reflexivity. Qed.

(** ** plan and register *)

Lemma Sim_enforces_index : enforces_index Sim.jobIndex.
Proof.
  intros c j i w Hne. simpl. unfold Sim.enforceRegister.
  destruct (i =? Sim.jobIndex w) eqn:E; [apply Z.eqb_eq in E; contradiction|].
  eexists. reflexivity.
Qed.

Lemma register_enforces_planned_index_witness :
  let s := Sim.loaded Sim.webJob (Sim.webConfig 3 "app" "app1" "r1") Sim.rivalWorld in
  exists s1 e w1,
    plan s = Done None s1
    /\ w1 = world s1
    /\ Sim.jobIndex w1 = 8
    /\ register 5 s1
       = Done (Some e)
           (mkState (deployer s1) w1
              (trace s1 ++ [EEnforceRegister (Some Sim.webJob) 7])).
Proof.
  intros s.
  pose (jp := {| JobModifyIndex := 7 |}).
  pose (w1 := snd (Sim.planJob Sim.rivalWorld)).
  assert (Hp : Jobs_Plan Sim.client (job (deployer s)) false (world s)
               = (inr jp, w1)) by reflexivity.
  destruct (register_enforces_planned_index 5 s Sim.client jp w1 eq_refl Hp)
    as (P & _ & _ & R).
  destruct (R Sim.jobIndex Sim_enforces_index) as (e & _ & R').
  { vm_compute. discriminate. }
  eexists _, e, w1. split; [exact P|]. split; [reflexivity|].
  split; [reflexivity | exact R'].
Defined.

(** ** getDeploymentID *)

Example getDeploymentID_after_one_sleep :
  getDeploymentID 2 (Sim.registered0 Sim.world0)
  = Done None
      (mkState (set_jobDeploymentID "dep-1" (deployer (Sim.registered0 Sim.world0)))
         {| Sim.files := Sim.files Sim.world0; Sim.jobIndex := 7;
            Sim.rival := false; Sim.registered := None;
            Sim.evaluations := [Sim.deployedEval];
            Sim.deployments := Sim.deployments Sim.world0;
            Sim.allocations := inr [] |}
         [EEvaluationInfo "eval-1"; ESleep Second; EEvaluationInfo "eval-1"]).
Proof. vm_compute. reflexivity. Qed.

Lemma Sim_stuck_polls c id k w :
  polls c id k Sim.stuckWorld w -> w = Sim.stuckWorld.
Proof.
  remember Sim.stuckWorld as w0 eqn:E. induction 1 as [|k w ev w1 w2 I _ _ IH].
  - reflexivity.
  - subst w. simpl in I. injection I as _ <-. now apply IH.
Qed.


(** ** status *)

Lemma status_running_running_successful_witness :
  status 3 (Sim.deployed Sim.world0)
  = Done None
      (mkState (deployer (Sim.deployed Sim.world0))
         {| Sim.files := Sim.files Sim.world0; Sim.jobIndex := 7;
            Sim.rival := false; Sim.registered := None;
            Sim.evaluations := Sim.evaluations Sim.world0;
            Sim.deployments := [Sim.successful 12];
            Sim.allocations := inr [] |}
         [EDeploymentInfo "dep-1"
            {| WaitIndex := 1; AllowStale := true; WaitTime := 5000000000 |};
          EDeploymentInfo "dep-1"
            {| WaitIndex := 10; AllowStale := true; WaitTime := 5000000000 |};
          EDeploymentInfo "dep-1"
            {| WaitIndex := 11; AllowStale := true; WaitTime := 5000000000 |}]).
Proof.
  exact (proj2 (status_running_running_successful 3 (Sim.deployed Sim.world0))
           Sim.client _ _ _ _ _ _ _ _ _
           ltac:(discriminate) eq_refl eq_refl eq_refl eq_refl eq_refl
           eq_refl eq_refl ltac:(lia)).
Defined.

Example status_without_deployment :
  status 0 (Sim.registered0 Sim.world0) = Done None (Sim.registered0 Sim.world0).
Proof. reflexivity. Qed.

(** C3, the claim as written fails: the deployment fails, one event
    carries the driver error [boom], and the error returned does not
    contain [boom]; the text went to standard output. *)
Lemma status_error_lacks_driver_text :
  exists s',
    status 5 (Sim.deployed Sim.failingWorld)
    = Done (Some (errorString
                    "deployment failed status: failed Failed due to unhealthy allocations"))
        s'
    /\ contains "boom"
         "deployment failed status: failed Failed due to unhealthy allocations"
       = false
    /\ last (trace s') = Some (EPrintf "boom").
Proof. eexists. split; [vm_compute; reflexivity|]. split; reflexivity. Qed.

Lemma status_failure_report_witness :
  status 5 (Sim.deployed Sim.failingWorld)
  = Done (Some (errorString
                  "deployment failed status: failed Failed due to unhealthy allocations"))
      (mkState (deployer (Sim.deployed Sim.failingWorld))
         (snd (Sim.deploymentInfo Sim.failingWorld))
         [EDeploymentInfo "dep-1" (query 1);
          EDeploymentInfo "dep-1" (query 10);
          EDeploymentAllocations "dep-1";
          EPrintf "boom"]).
Proof.
  pose (w := snd (Sim.deploymentInfo Sim.failingWorld)).
  assert (W : watches Sim.client "dep-1" 1 1 Sim.failingWorld 10 w
                [EDeploymentInfo "dep-1" (query 1)]).
  { eapply watches_S; [reflexivity | reflexivity | apply watches_O]. }
  assert (I : Deployments_Info Sim.client "dep-1" (query 10) w
              = (inr (Sim.failed 11), w)) by reflexivity.
  exact (proj1 (status_failure_report 5 1 (Sim.deployed Sim.failingWorld)
                  Sim.client 10 w _ _ w _
                  ltac:(discriminate) eq_refl W I
                  ltac:(discriminate) ltac:(discriminate) ltac:(lia))).
Defined.

(** ** validate *)

Lemma Sim_webJob_mergeable : mergeable "web" Sim.webJob.
Proof.
  unfold mergeable. simpl. repeat constructor.
  - exists "web". split; [reflexivity|]. intros _.
    repeat constructor; simpl; [eauto | discriminate].
  - exists "cache". split; [reflexivity|]. discriminate.
Qed.

Lemma Sim_cacheJob_mergeable : mergeable "web" Sim.cacheJob.
Proof.
  unfold mergeable. simpl. repeat constructor.
  exists "cache". split; [reflexivity|]. discriminate.
Qed.

(** C4, the claim as written fails: no task group of the job is named
    [web], and the host group constraint is on the job all the same. *)
Lemma validate_constrains_job_without_group :
  let s := Sim.loaded Sim.cacheJob (Sim.webConfig 0 "app" "" "") Sim.world0 in
  (forall tg, tg ∈ Job_TaskGroups Sim.cacheJob -> TaskGroup_Name tg <> Some "web")
  /\ exists s' j',
       validate s = Done None s'
       /\ job (deployer s') = Some j'
       /\ Job_Constraints j'
          = [{| LTarget := "${meta.hostgroup}"; RTarget := "app";
                Operand := "=" |}].
Proof.
  intros s. split.
  - intros tg Hin. apply list_elem_of_singleton in Hin as ->. discriminate.
  - eexists _, _. split; [vm_compute; reflexivity|]. split; reflexivity.
Qed.

Lemma validate_placement_constraints_witness :
  let s := Sim.loaded Sim.webJob (Sim.webConfig 3 "app" "" "r1") Sim.world0 in
  exists r s' j',
    validate s = Done r s'
    /\ job (deployer s') = Some j'
    /\ Job_Constraints j'
       = [NewConstraint "${meta.dc_region}" "=" "r1";
          NewConstraint "${meta.hostgroup}" "=" "app"].
Proof.
  intros s.
  exact (validate_placement_constraints s Sim.client Sim.webJob
           (Sim.webConfig 3 "app" "" "r1") eq_refl eq_refl eq_refl
           Sim_webJob_mergeable).
Defined.

(** C5, the claim as written fails: the job has no task group named
    [web], [validate] succeeds, and the image in the datacenter
    configuration is still the configured one, not the deployed one. *)
Lemma validate_keeps_static_image :
  let s := Sim.loaded Sim.cacheJob (Sim.webConfig 0 "app" "" "") Sim.world0 in
  image (deployer s) = "web:v2"
  /\ exists s',
       validate s = Done None s'
       /\ Image <$> Services (config (deployer s')) !! "web" = Some "web:static".
Proof.
  intros s. split; [reflexivity|].
  eexists. split; [vm_compute; reflexivity | reflexivity].
Qed.

Lemma validate_image_overwrite_witness :
  let s := Sim.loaded Sim.webJob (Sim.webConfig 3 "app" "" "r1") Sim.world0 in
  exists r s',
    validate s = Done r s'
    /\ Image <$> Services (config (deployer s')) !! "web" = Some "web:v2".
Proof.
  intros s.
  destruct (validate_image_overwrite s Sim.client Sim.webJob
              (Sim.webConfig 3 "app" "" "r1") eq_refl eq_refl eq_refl
              Sim_webJob_mergeable)
    as (r & s' & j' & V & _ & _ & H & _).
  exists r, s'. split; [exact V|].
  change "web" with (service (deployer s)) at 1.
  rewrite H; [reflexivity|].
  eexists _, _. split; [apply list_elem_of_here|].
  split; [reflexivity|]. split; [apply list_elem_of_here | reflexivity].
Defined.

Lemma validate_count_override_witness :
  let s := Sim.loaded Sim.webJob (Sim.webConfig 3 "app" "" "r1") Sim.world0 in
  exists r s' j',
    validate s = Done r s'
    /\ job (deployer s') = Some j'
    /\ TaskGroup_Count <$> Job_TaskGroups j' = [Some 3; Some 2].
Proof.
  intros s.
  destruct (validate_count_override s Sim.client Sim.webJob
              (Sim.webConfig 3 "app" "" "r1") eq_refl eq_refl eq_refl
              Sim_webJob_mergeable)
    as (r & s' & j' & V & J & F).
  exists r, s', j'. split; [exact V|]. split; [exact J|].
  simpl in F.
  apply Forall2_cons_inv_l in F as (tg1 & k1 & (_ & C1 & _) & F & ->).
  apply Forall2_cons_inv_l in F as (tg2 & k2 & (_ & _ & _ & C2) & F & ->).
  apply Forall2_nil_inv_l in F as ->.
  simpl. rewrite C1, C2; [reflexivity | discriminate | reflexivity | reflexivity].
Defined.

Example validate_count_zero_keeps_count :
  exists s' j',
    validate (Sim.loaded Sim.webJob (Sim.webConfig 0 "app" "" "r1") Sim.world0)
    = Done None s'
    /\ job (deployer s') = Some j'
    /\ TaskGroup_Count <$> Job_TaskGroups j' = [Some 1; Some 2].
Proof. eexists _, _. split; [vm_compute; reflexivity|]. split; reflexivity. Qed.

(** ** loadServiceConfig *)

Example loadServiceConfig_falls_back_to_system :
  let w := {| Sim.files := [("/srv/nomad/system/web.nomad", Sim.webJob)];
              Sim.jobIndex := 7; Sim.rival := false; Sim.registered := None;
              Sim.evaluations := []; Sim.deployments := [];
              Sim.allocations := inr [] |} in
  exists s',
    loadServiceConfig (Sim.start (Sim.webConfig 3 "app" "" "r1") w) = Done None s'
    /\ job (deployer s') = Some Sim.webJob
    /\ trace s' = [EParseFile "/srv/nomad/service/web.nomad";
                   EParseFile "/srv/nomad/system/web.nomad"].
Proof. eexists. split; [vm_compute; reflexivity|]. split; reflexivity. Qed.

(** * More of the code *)

(** ** splitComma *)

Lemma Split_not_nil (s : string) (sep : ascii) : strings.Split s sep <> [].
Proof.
  destruct s as [|c rest]; simpl; [discriminate|].
  destruct (Ascii.eqb c sep); [discriminate|].
  destruct (strings.Split rest sep); discriminate.
Qed.

Lemma join_cons (sep : ascii) (p : string) (rest : list string) :
  rest <> [] -> join sep (p :: rest) = p +:+ String sep (join sep rest).
Proof. destruct rest; [congruence | reflexivity]. Qed.

Lemma join_String (sep c : ascii) (p : string) (ps : list string) :
  join sep (String c p :: ps) = String c (join sep (p :: ps)).
Proof. destruct ps; reflexivity. Qed.

Lemma Split_join (s : string) (sep : ascii) :
  join sep (strings.Split s sep) = s.
Proof.
  induction s as [|c rest IH]; [reflexivity|]. simpl.
  destruct (Ascii.eqb c sep) eqn:E.
  - apply Ascii.eqb_eq in E. subst c.
    rewrite join_cons by apply Split_not_nil.
    now rewrite IH, append_nil_l.
  - destruct (strings.Split rest sep) as [|p ps] eqn:S.
    + now apply Split_not_nil in S.
    + now rewrite join_String, IH.
Qed.

Lemma Split_length (s : string) (sep : ascii) :
  length (strings.Split s sep) = S (count_char sep s).
Proof.
  induction s as [|c rest IH]; [reflexivity|]. simpl.
  destruct (Ascii.eqb c sep); simpl.
  - now rewrite IH.
  - destruct (strings.Split rest sep) as [|p ps] eqn:S.
    + now apply Split_not_nil in S.
    + exact IH.
Qed.

Lemma Split_no_sep (s : string) (sep : ascii) :
  Forall (fun p => count_char sep p = O) (strings.Split s sep).
Proof.
  induction s as [|c rest IH]; simpl; [repeat constructor|].
  destruct (Ascii.eqb c sep) eqn:E.
  - constructor; [reflexivity | exact IH].
  - destruct (strings.Split rest sep) as [|p ps] eqn:S.
    + repeat constructor. simpl. now rewrite E.
    + inversion IH as [|? ? Hp Hps]; subst.
      constructor; [|exact Hps]. simpl. now rewrite E.
Qed.

Lemma count_char_append (c : ascii) (a b : string) :
  count_char c (a +:+ b) = (count_char c a + count_char c b)%nat.
Proof.
  induction a as [|x a IH]; [reflexivity|].
  rewrite append_cons. simpl. rewrite IH. lia.
Qed.

Lemma Split_piece (sep : ascii) (p : string) :
  count_char sep p = O -> strings.Split p sep = [p].
Proof.
  induction p as [|c p IH]; [reflexivity|]. simpl.
  destruct (Ascii.eqb c sep); [discriminate|].
  intros H. now rewrite (IH H).
Qed.

Lemma Split_append (sep : ascii) (p rest : string) :
  count_char sep p = O ->
  strings.Split (p +:+ String sep rest) sep = p :: strings.Split rest sep.
Proof.
  induction p as [|c p IH].
  - intros _. rewrite append_nil_l. simpl. now rewrite Ascii.eqb_refl.
  - rewrite append_cons. simpl.
    destruct (Ascii.eqb c sep); [discriminate|].
    intros H. now rewrite (IH H).
Qed.

Lemma Split_of_join (sep : ascii) (parts : list string) :
  parts <> [] ->
  Forall (fun p => count_char sep p = O) parts ->
  strings.Split (join sep parts) sep = parts.
Proof.
  induction parts as [|p rest IH]; [congruence|].
  intros _ F. inversion F as [|? ? Hp Hrest]; subst.
  destruct rest as [|q rest].
  - simpl. now apply Split_piece.
  - rewrite join_cons by discriminate.
    rewrite Split_append by exact Hp.
    f_equal. apply IH; [discriminate | exact Hrest].
Qed.

(** X1.  [splitComma] returns nil for the empty text and for no other:
    a text with nothing in it gives no piece, any other gives at least
    one. *)
Theorem splitComma_nil_iff (s : string) : splitComma s = [] <-> s = "".
Proof.
  unfold splitComma. split.
  - intros H. rewrite <- (Split_join s ",").
    destruct (strings.Split s ",") as [|p [|q ps]] eqn:S.
    + now apply Split_not_nil in S.
    + destruct (p =? "")%string eqn:E; [|discriminate].
      apply String.eqb_eq in E. now subst p.
    + discriminate.
  - intros ->. reflexivity.
Qed.

(** X2.  The pieces [splitComma] returns, put back together with a
    comma between them, are the text it was given: no character is lost
    or added, also for the empty text. *)
Theorem splitComma_join (s : string) : join "," (splitComma s) = s.
Proof.
  unfold splitComma. pose proof (Split_join s ",") as J.
  destruct (strings.Split s ",") as [|p [|q ps]]; try exact J.
  destruct (p =? "")%string eqn:E; [|exact J].
  apply String.eqb_eq in E. subst p. exact J.
Qed.

(** X3.  No piece [splitComma] returns holds a comma, and a text that
    is not empty gives one piece more than it has commas: empty pieces
    between two commas, before the first and after the last are kept. *)
Theorem splitComma_pieces (s : string) :
  Forall (fun p => count_char "," p = O) (splitComma s)
  /\ length (splitComma s)
     = if (s =? "")%string then O else S (count_char "," s).
Proof.
  unfold splitComma.
  pose proof (Split_no_sep s ",") as F.
  pose proof (Split_length s ",") as L.
  pose proof (Split_join s ",") as J.
  destruct (strings.Split s ",") as [|p [|q ps]].
  - discriminate.
  - destruct (p =? "")%string eqn:E.
    + apply String.eqb_eq in E. subst p. simpl in J. subst s.
      split; [constructor | reflexivity].
    + split; [exact F|]. simpl in J. subst p. now rewrite E.
  - split; [exact F|].
    destruct (s =? "")%string eqn:E; [|exact L].
    apply String.eqb_eq in E. rewrite E in L. discriminate L.
Qed.

(** X4.  Splitting is the inverse of joining: for pieces without a
    comma, other than the single empty piece, [splitComma] of the
    pieces joined by commas gives the pieces back. *)
Theorem splitComma_of_join (parts : list string) :
  Forall (fun p => count_char "," p = O) parts ->
  parts <> [""] ->
  splitComma (join "," parts) = parts.
Proof.
  intros F N. destruct parts as [|p rest]; [reflexivity|].
  unfold splitComma. rewrite Split_of_join by (discriminate || exact F).
  destruct rest; [|reflexivity].
  destruct (p =? "")%string eqn:E; [|reflexivity].
  apply String.eqb_eq in E. now subst p.
Qed.

Lemma splitComma_of_join_witness :
  splitComma (join "," ["duration"; ""; "status"]) = ["duration"; ""; "status"].
Proof.
  apply splitComma_of_join; [repeat constructor | discriminate].
Defined.

(** ** What each step does to the state *)

Section Steps.
Context {World : Type} `{api : Orchestration World}.

Abbreviation St := (State World).

Ltac unfold_go :=
  unfold bind, ret, call, emit, emits, get_d, modify_d, the_cli, panic.

Lemma ClientConfig_http (region address : string) :
  ClientConfig region address false
  = {| Config_Address := "http://" +:+ address; Config_Region := region |}.
Proof. unfold ClientConfig. f_equal. cbn. now autorewrite with str. Qed.

Lemma connect_eq (s : St) :
  let d := deployer s in
  let cfg := {| Config_Address := "http://" +:+ address d;
                Config_Region := Dc (config d) |} in
  connect s =
  match NewClient cfg (world s) with
  | (inl e, w) => Done (Some e) (mkState d w (trace s ++ [ENewClient cfg]))
  | (inr cl, w) =>
      Done None (mkState (set_cli (Some cl) d) w (trace s ++ [ENewClient cfg]))
  end.
Proof.
  intros d cfg. unfold connect. unfold_go. rewrite ClientConfig_http.
  fold d cfg. destruct (NewClient cfg (world s)) as [[e|cl] w]; reflexivity.
Qed.

Lemma plan_eq (s : St) :
  let d := deployer s in
  plan s =
  match cli d with
  | None => Panic "nil pointer dereference: d.cli"
  | Some c =>
      match Jobs_Plan c (job d) false (world s) with
      | (inl e, w) =>
          Done (Some e) (mkState d w (trace s ++ [EPlan (job d) false]))
      | (inr jp, w) =>
          Done None (mkState (set_jobModifyIndex (JobModifyIndex jp) d) w
                       (trace s ++ [EPlan (job d) false]))
      end
  end.
Proof.
  intros d. unfold plan. unfold_go. fold d.
  destruct (cli d) as [c|]; [|reflexivity]. cbn [deployer world trace].
  destruct (Jobs_Plan c (job d) false (world s)) as [[e|jp] w]; reflexivity.
Qed.

Lemma register_nil_cli (fuel : nat) (s : St) :
  cli (deployer s) = None ->
  register fuel s = Panic "nil pointer dereference: d.cli".
Proof. intros H. unfold register. unfold_go. now rewrite H. Qed.

Lemma getDeploymentID_nil_cli (fuel : nat) (s : St) r s' :
  cli (deployer s) = None -> getDeploymentID fuel s <> Done r s'.
Proof.
  intros H. destruct fuel; [discriminate|].
  simpl. unfold_go. now rewrite H.
Qed.

Lemma waits_polling id k : Forall (fun e => polling e = true) (waits id k).
Proof. induction k; simpl; repeat constructor. exact IHk. Qed.

Lemma showErrors_polling (al : list Allocation) :
  Forall (fun e => polling e = true) (showErrors al).
Proof.
  unfold showErrors. apply Forall_fmap, Forall_true. reflexivity.
Qed.

(** The evaluation poll writes the deployment identifier and nothing
    else, and only polls. *)
Lemma getDeploymentID_inv (fuel : nat) (s : St) r s' :
  getDeploymentID fuel s = Done r s' ->
  exists es,
    trace s' = trace s ++ es
    /\ Forall (fun e => polling e = true) es
    /\ (deployer s' = deployer s
        \/ exists id, id <> "" /\ r = None
                      /\ deployer s' = set_jobDeploymentID id (deployer s)).
Proof.
  intros H. destruct (cli (deployer s)) as [c|] eqn:Hc.
  - apply (getDeploymentID_Done fuel s c r s' Hc) in H.
    destruct H as (k & w & a & w' & d' & _ & _ & _ & Hs & ->). simpl.
    eexists. split; [reflexivity|]. split.
    + apply Forall_app. split; [apply waits_polling | repeat constructor].
    + inversion Hs; subst; eauto.
  - now apply getDeploymentID_nil_cli in H.
Qed.

Lemma register_inv (fuel : nat) (s : St) r s' :
  register fuel s = Done r s' ->
  let d := deployer s in
  exists es,
    trace s' = trace s ++ EEnforceRegister (job d) (jobModifyIndex d) :: es
    /\ Forall (fun e => polling e = true) es
    /\ job (deployer s') = job d
    /\ config (deployer s') = config d
    /\ cli (deployer s') = cli d
    /\ jobModifyIndex (deployer s') = jobModifyIndex d.
Proof.
  intros H d. destruct (cli (deployer s)) as [c|] eqn:Hc.
  - rewrite (register_eq fuel s c Hc) in H. cbv zeta in H. fold d in H.
    destruct (Jobs_EnforceRegister c (job d) (jobModifyIndex d) (world s))
      as [[e|jr] w2].
    + injection H as <- <-. simpl. exists []. fold d in Hc. rewrite Hc.
      repeat split; constructor.
    + apply getDeploymentID_inv in H as (es & T & F & D). simpl in *.
      exists es. rewrite T, <- app_assoc. split; [reflexivity|].
      split; [exact F|]. fold d in Hc. rewrite Hc.
      destruct D as [->|(id & _ & _ & ->)]; simpl; rewrite ?Hc; auto.
  - rewrite register_nil_cli in H by exact Hc. discriminate.
Qed.

Lemma register_no_panic (fuel : nat) (s : St) c why :
  cli (deployer s) = Some c -> register fuel s <> Panic why.
Proof.
  intros Hc. rewrite (register_eq fuel s c Hc). cbv zeta.
  destruct (Jobs_EnforceRegister _ _ _ _) as [[e|jr] w2]; [discriminate|].
  apply (getDeploymentID_no_panic fuel _ c). exact Hc.
Qed.

(** The status poll leaves the deployer as it is, and only polls. *)
Lemma status_loop_inv (fuel : nat) : forall depID c wi (s : St) r s',
  status_loop fuel depID c wi s = Done r s' ->
  deployer s' = deployer s
  /\ exists es, trace s' = trace s ++ es
                /\ Forall (fun e => polling e = true) es.
Proof.
  induction fuel as [|fuel IH]; intros depID c wi s r s' H; [discriminate|].
  rewrite status_loop_step in H.
  destruct (Deployments_Info c depID (query wi) (world s))
    as [[e|[dep meta]] w1].
  - injection H as <- <-. simpl. split; [reflexivity|].
    eexists. split; [reflexivity | repeat constructor].
  - destruct (Deployment_Status dep =? DeploymentStatusRunning)%string.
    + apply IH in H as (D & es & T & F). simpl in *. split; [exact D|].
      eexists. rewrite T, <- app_assoc. split; [reflexivity|].
      constructor; [reflexivity | exact F].
    + destruct (Deployment_Status dep =? DeploymentStatusSuccessful)%string.
      * injection H as <- <-. simpl. split; [reflexivity|].
        eexists. split; [reflexivity | repeat constructor].
      * destruct (Deployments_Allocations c depID w1) as [[e|al] w2];
          injection H as <- <-; simpl; (split; [reflexivity|]);
          eexists; (split; [reflexivity|]).
        -- repeat constructor.
        -- constructor; [reflexivity|]. constructor; [reflexivity|].
           apply showErrors_polling.
Qed.

Lemma status_loop_no_panic (fuel : nat) : forall depID c wi (s : St) why,
  status_loop fuel depID c wi s <> Panic why.
Proof.
  induction fuel as [|fuel IH]; intros depID c wi s why; [discriminate|].
  rewrite status_loop_step.
  destruct (Deployments_Info c depID (query wi) (world s))
    as [[e|[dep meta]] w1]; [discriminate|].
  destruct (Deployment_Status dep =? DeploymentStatusRunning)%string;
    [apply IH|].
  destruct (Deployment_Status dep =? DeploymentStatusSuccessful)%string;
    [discriminate|].
  destruct (Deployments_Allocations c depID w1) as [[e|al] w2]; discriminate.
Qed.

Lemma status_unfold (fuel : nat) (s : St) :
  status fuel s =
  if (jobDeploymentID (deployer s) =? "")%string then Done None s
  else match cli (deployer s) with
       | Some c => status_loop fuel (jobDeploymentID (deployer s)) c 1 s
       | None => Panic "nil pointer dereference: d.cli"
       end.
Proof.
  unfold status. unfold_go.
  destruct (jobDeploymentID (deployer s) =? "")%string; [reflexivity|].
  destruct (cli (deployer s)); reflexivity.
Qed.

Lemma status_inv (fuel : nat) (s : St) r s' :
  status fuel s = Done r s' ->
  deployer s' = deployer s
  /\ exists es, trace s' = trace s ++ es
                /\ Forall (fun e => polling e = true) es.
Proof.
  rewrite status_unfold.
  destruct (jobDeploymentID (deployer s) =? "")%string.
  - intros [= <- <-]. split; [reflexivity|].
    exists []. split; [now rewrite app_nil_r | constructor].
  - destruct (cli (deployer s)) as [c|]; [apply status_loop_inv | discriminate].
Qed.

Lemma status_no_panic (fuel : nat) (s : St) c why :
  cli (deployer s) = Some c -> status fuel s <> Panic why.
Proof.
  intros Hc. rewrite status_unfold, Hc.
  destruct (jobDeploymentID (deployer s) =? "")%string; [discriminate|].
  apply status_loop_no_panic.
Qed.

End Steps.

(** ** validate, beyond the overrides *)

Section Validate.
Context {World : Type} `{api : Orchestration World}.

Abbreviation St := (State World).

Ltac unfold_go :=
  unfold bind, ret, call, emit, emits, get_d, modify_d, the_cli, panic.

Lemma validate_unfold (s : St) :
  let d := deployer s in
  validate s =
  match merge d with
  | None => Panic "nil dereference in validate"
  | Some (j, cfg) =>
      match cli d with
      | None => Panic "nil pointer dereference: d.cli"
      | Some c =>
          let (err, w) := Jobs_Validate c (Some j) (world s) in
          Done err (mkState (set_config cfg (set_job (Some j) d)) w
                      (trace s ++ [EValidate (Some j)]))
      end
  end.
Proof.
  intros d. unfold validate. unfold_go. fold d.
  destruct (merge d) as [[j cfg]|]; [|reflexivity].
  cbn [deployer world trace cli set_config set_job]. fold d.
  destruct (cli d) as [c|]; [|reflexivity]. cbn [deployer world trace].
  destruct (Jobs_Validate c (Some j) (world s)) as [[e|] w]; reflexivity.
Qed.

Lemma mergeTask_is_Some_inv service image ta :
  is_Some (mergeTask service image ta) ->
  Task_Name ta = service -> is_Some (Task_Config ta).
Proof.
  unfold mergeTask. intros [ta' H] E. apply String.eqb_eq in E.
  rewrite E in H. destruct (Task_Config ta); [eauto | discriminate].
Qed.

Lemma mergeTaskGroup_is_Some_inv service image sc tg :
  is_Some (mergeTaskGroup service image sc tg) ->
  exists name,
    TaskGroup_Name tg = Some name
    /\ (name = service ->
        Forall (fun ta => Task_Name ta = service -> is_Some (Task_Config ta))
          (TaskGroup_Tasks tg)).
Proof.
  unfold mergeTaskGroup. intros [tg' H].
  destruct (TaskGroup_Name tg) as [name|]; [|discriminate].
  exists name. split; [reflexivity|]. intros E.
  apply String.eqb_eq in E. simpl in H. rewrite E in H.
  destruct (mapM (mergeTask service image) (TaskGroup_Tasks tg)) as [tasks|] eqn:T;
    [|discriminate].
  assert (S : is_Some (mapM (mergeTask service image) (TaskGroup_Tasks tg)))
    by (rewrite T; eauto).
  apply mapM_is_Some_1 in S.
  eapply Forall_impl; [exact S|].
  intros ta Hta. apply (mergeTask_is_Some_inv service image ta Hta).
Qed.

Lemma merge_Some_inv (d : Deployer) :
  is_Some (merge d) ->
  exists j sc,
    job d = Some j
    /\ Services (config d) !! service d = Some sc
    /\ mergeable (service d) j.
Proof.
  unfold merge. intros [[j' cfg] H].
  destruct (job d) as [j|]; [|discriminate]. simpl in H.
  destruct (Services (config d) !! service d) as [sc|]; [|discriminate].
  simpl in H.
  exists j, sc. split; [reflexivity|]. split; [reflexivity|].
  match type of H with
  | context [mapM ?f ?l] => destruct (mapM f l) as [tgs|] eqn:T; [|discriminate];
      assert (S : is_Some (mapM f l)) by (rewrite T; eauto)
  end.
  apply mapM_is_Some_1 in S.
  rewrite !(proj2 (proj2 (constrainIf_other _ _ _))) in S. simpl in S.
  unfold mergeable. eapply Forall_impl; [exact S|].
  intros tg Htg. exact (mergeTaskGroup_is_Some_inv _ _ _ _ Htg).
Qed.

(** X5.  [validate] returns (with nil or with the scheduler's error)
    exactly when the deployer has a job and a client, the service has
    an entry in the datacenter configuration, every task group of the
    job has a name and every task that is to get the image has a config
    map.  In every other state it panics. *)
Theorem validate_returns_iff (s : St) :
  let d := deployer s in
  let ready :=
    exists j sc c,
      job d = Some j
      /\ Services (config d) !! service d = Some sc
      /\ cli d = Some c
      /\ mergeable (service d) j in
  ((exists r s', validate s = Done r s') <-> ready)
  /\ ((exists why, validate s = Panic why) <-> ~ ready).
Proof.
  intros d ready.
  assert (Fwd : (exists r s', validate s = Done r s') -> ready).
  { intros (r & s' & H). rewrite validate_unfold in H. fold d in H.
    destruct (merge d) as [[j' cfg]|] eqn:M; [|discriminate].
    destruct (cli d) as [c|] eqn:Hc; [|discriminate].
    destruct (merge_Some_inv d) as (j & sc & Hj & Hs & Hm); [rewrite M; eauto|].
    exists j, sc, c. auto. }
  assert (Bwd : ready -> exists r s', validate s = Done r s').
  { intros (j & sc & c & Hj & Hs & Hc & Hm).
    destruct (validate_run s c j sc Hj Hs Hc Hm)
      as (tgs' & err & w' & _ & _ & V).
    eauto. }
  split; [split; assumption|]. split.
  - intros (why & P) R. destruct (Bwd R) as (r & s' & D). congruence.
  - intros N. rewrite validate_unfold. fold d.
    destruct (merge d) as [[j' cfg]|] eqn:M; [|eauto].
    destruct (cli d) as [c|] eqn:Hc; [|eauto].
    exfalso. apply N.
    destruct (merge_Some_inv d) as (j & sc & Hj & Hs & Hm); [rewrite M; eauto|].
    exists j, sc, c. auto.
Qed.

Lemma Forall2_Some_r {A B} (f : A -> option B) (Q : B -> Prop) l k :
  Forall2 (fun x y => f x = Some y) l k ->
  (forall x y, f x = Some y -> Q y) ->
  Forall Q k.
Proof.
  intros F H. eapply Forall2_Forall_r; [exact F|].
  apply Forall_true. intros x y. apply H.
Qed.

Lemma mergeTask_keeps service image ta ta' :
  mergeTask service image ta = Some ta' ->
  Task_Name ta' = Task_Name ta
  /\ (Task_Name ta <> service -> ta' = ta)
  /\ (forall cfg cfg' k,
        Task_Config ta = Some cfg -> Task_Config ta' = Some cfg' ->
        k <> "image" -> cfg' !! k = cfg !! k).
Proof.
  intros H. apply mergeTask_Some in H as (N & Y & O).
  split; [exact N|]. split; [exact O|].
  intros cfg cfg' k C C' Hk.
  destruct (String.eqb_spec (Task_Name ta) service) as [E|E].
  - destruct (Y E) as (cfg0 & C0 & C0').
    rewrite C0 in C. rewrite C0' in C'. injection C as <-. injection C' as <-.
    now apply lookup_insert_ne.
  - rewrite (O E) in C'. congruence.
Qed.

(** X6.  [validate] sets the job's region to the region of the
    datacenter configuration and appends the datacenter to the job's
    list.  It adds, drops, renames and reorders no task group and no
    task: a task group with another name than the service is left as it
    is, so is a task with another name, and in the config of a task
    that gets the image every key but [image] keeps its value. *)
Theorem validate_keeps_shape (s : St) c j sc :
  let d := deployer s in
  job d = Some j ->
  Services (config d) !! service d = Some sc ->
  cli d = Some c ->
  mergeable (service d) j ->
  exists r s' j',
    validate s = Done r s'
    /\ job (deployer s') = Some j'
    /\ Job_Region j' = Some (Region (config d))
    /\ Job_Datacenters j' = Job_Datacenters j ++ [Dc (config d)]
    /\ Forall2 (fun tg tg' =>
         TaskGroup_Name tg' = TaskGroup_Name tg
         /\ (TaskGroup_Name tg <> Some (service d) -> tg' = tg)
         /\ Forall2 (fun ta ta' =>
              Task_Name ta' = Task_Name ta
              /\ (Task_Name ta <> service d -> ta' = ta)
              /\ (forall cfg cfg' k,
                    Task_Config ta = Some cfg -> Task_Config ta' = Some cfg' ->
                    k <> "image" -> cfg' !! k = cfg !! k))
             (TaskGroup_Tasks tg) (TaskGroup_Tasks tg'))
       (Job_TaskGroups j) (Job_TaskGroups j').
Proof.
  intros d Hj Hs Hc Hm.
  destruct (validate_run s c j sc Hj Hs Hc Hm)
    as (tgs' & err & w' & F & _ & V).
  eexists _, _, _. split; [exact V|]. split; [reflexivity|].
  split; [reflexivity|]. split; [reflexivity|].
  cbn [Job_TaskGroups]. eapply Forall2_impl; [exact F|].
  intros tg tg' G. apply mergeTaskGroup_Some in G as (N & G & O).
  split; [exact N|]. split; [exact O|].
  destruct (TaskGroup_Name tg) as [name|] eqn:E.
  - destruct (String.eqb_spec name (service d)) as [->|Hne].
    + destruct (G eq_refl) as [_ T].
      eapply Forall2_impl; [exact T|].
      intros ta ta' K. exact (mergeTask_keeps _ _ _ _ K).
    + rewrite O by (intros [= X]; exact (Hne X)).
      apply Forall_Forall2_diag, Forall_true. intros ta.
      repeat split; congruence.
  - rewrite O by discriminate.
    apply Forall_Forall2_diag, Forall_true. intros ta.
    repeat split; congruence.
Qed.

(** X7.  Of the datacenter configuration [validate] can change one
    thing, the image of the service's own entry: region and datacenter,
    the entries of all other services, and every other field of the
    service's entry are as before, and so are the deployer's own
    settings, its client and its three run-state fields. *)
Theorem validate_config_frame (s : St) c j sc :
  let d := deployer s in
  job d = Some j ->
  Services (config d) !! service d = Some sc ->
  cli d = Some c ->
  mergeable (service d) j ->
  exists r s' sc',
    validate s = Done r s'
    /\ Region (config (deployer s')) = Region (config d)
    /\ Dc (config (deployer s')) = Dc (config d)
    /\ (forall n, n <> service d ->
          Services (config (deployer s')) !! n = Services (config d) !! n)
    /\ Services (config (deployer s')) !! service d = Some sc'
    /\ (Image sc' = Image sc \/ Image sc' = image d)
    /\ set_Image (Image sc) sc' = sc
    /\ set_config (config d) (set_job (job d) (deployer s')) = d.
Proof.
  intros d Hj Hs Hc Hm.
  destruct (validate_run s c j sc Hj Hs Hc Hm)
    as (tgs' & err & w' & _ & _ & V).
  cbv zeta in V. fold d in V.
  destruct (imageAssigned (service d) (Job_TaskGroups j)) eqn:I.
  - eexists _, _, (set_Image (image d) sc). split; [exact V|].
    cbn [deployer config set_config set_job]. simpl.
    repeat split.
    + intros n Hn. now apply lookup_insert_ne.
    + apply lookup_insert_eq.
    + now right.
    + now destruct sc.
    + now destruct d.
  - eexists _, _, sc. split; [exact V|].
    cbn [deployer config set_config set_job].
    repeat split.
    + exact Hs.
    + now left.
    + now destruct sc.
    + now destruct d.
Qed.

Lemma mergeTask_idem service image ta ta' :
  mergeTask service image ta = Some ta' ->
  mergeTask service image ta' = Some ta'.
Proof.
  intros H. apply mergeTask_Some in H as (N & Y & O).
  unfold mergeTask. rewrite N.
  destruct (String.eqb_spec (Task_Name ta) service) as [E|E].
  - destruct (Y E) as (cfg & _ & C'). rewrite C'. simpl.
    rewrite insert_insert_eq. destruct ta' as [n' c']. simpl in *.
    now rewrite C', N.
  - reflexivity.
Qed.

Lemma mergeTaskGroup_idem service image sc sc1 tg tg' :
  Count sc1 = Count sc ->
  mergeTaskGroup service image sc tg = Some tg' ->
  mergeTaskGroup service image sc1 tg' = Some tg'.
Proof.
  intros HC H. pose proof H as H0.
  apply mergeTaskGroup_Some in H as (N & Y & O).
  unfold mergeTaskGroup. rewrite N.
  destruct (TaskGroup_Name tg) as [name|] eqn:E.
  - simpl. destruct (String.eqb_spec name service) as [->|Hne];
      [|reflexivity].
    destruct (Y eq_refl) as [C T].
    assert (M : mapM (mergeTask service image) (TaskGroup_Tasks tg')
                = Some (TaskGroup_Tasks tg')).
    { apply mapM_Some_2, Forall_Forall2_diag.
      eapply Forall2_Some_r; [exact T|].
      intros ta ta'. apply mergeTask_idem. }
    rewrite M. simpl. rewrite HC. destruct tg' as [n' c' t']. simpl in *.
    subst n' c'. now destruct (0 <? Count sc).
  - unfold mergeTaskGroup in H0. rewrite E in H0. discriminate.
Qed.

Lemma Forall2_Some_eq {A B} (f : A -> option B) l k k' :
  Forall2 (fun x y => f x = Some y) l k ->
  Forall2 (fun x y => f x = Some y) l k' ->
  k = k'.
Proof.
  intros F F'. apply mapM_Some_2 in F, F'. congruence.
Qed.

(** X8.  [validate] is not idempotent on the job.  Run a second time
    on the state the first run left, it returns again; the task groups
    are then as after the first run (count and image overrides repeat
    without effect), but the datacenter is in the job's list twice and
    every placement constraint is on the job twice. *)
Theorem validate_twice_appends_again (s : St) c j sc :
  let d := deployer s in
  job d = Some j ->
  Services (config d) !! service d = Some sc ->
  cli d = Some c ->
  mergeable (service d) j ->
  exists r1 s1 j1 r2 s2 j2,
    validate s = Done r1 s1
    /\ job (deployer s1) = Some j1
    /\ validate s1 = Done r2 s2
    /\ job (deployer s2) = Some j2
    /\ Job_TaskGroups j2 = Job_TaskGroups j1
    /\ Job_Datacenters j2
       = Job_Datacenters j ++ [Dc (config d); Dc (config d)]
    /\ Job_Constraints j2
       = Job_Constraints j ++ placement sc ++ placement sc.
Proof.
  intros d Hj Hs Hc Hm.
  destruct (validate_run s c j sc Hj Hs Hc Hm)
    as (tgs1 & err1 & w1 & F1 & _ & V1).
  cbv zeta in V1. fold d in F1, V1.
  set (j1 := {| Job_Region := Some (Region (config d));
                Job_Datacenters := Job_Datacenters j ++ [Dc (config d)];
                Job_Constraints := Job_Constraints j ++ placement sc;
                Job_TaskGroups := tgs1 |}) in *.
  set (cfg1 := if imageAssigned (service d) (Job_TaskGroups j)
               then set_Service (service d) (set_Image (image d) sc) (config d)
               else config d) in *.
  set (s1 := mkState (set_config cfg1 (set_job (Some j1) d)) w1
               (trace s ++ [EValidate (Some j1)])) in *.
  assert (Hsc1 : exists sc1,
            Services cfg1 !! service d = Some sc1
            /\ Count sc1 = Count sc /\ placement sc1 = placement sc
            /\ Dc cfg1 = Dc (config d) /\ Region cfg1 = Region (config d)).
  { unfold cfg1. destruct (imageAssigned _ _).
    - exists (set_Image (image d) sc). simpl.
      rewrite lookup_insert_eq. auto.
    - exists sc. auto. }
  destruct Hsc1 as (sc1 & Hs1 & HC & HP & HD & HR).
  assert (IdemF : Forall (fun tg =>
            mergeTaskGroup (service d) (image d) sc1 tg = Some tg) tgs1).
  { eapply Forall2_Some_r; [exact F1|].
    intros tg tg'. apply mergeTaskGroup_idem. exact HC. }
  assert (Idem : Forall2 (fun tg tg' =>
            mergeTaskGroup (service d) (image d) sc1 tg = Some tg') tgs1 tgs1).
  { now apply Forall_Forall2_diag. }
  assert (Hm1 : mergeable (service d) j1).
  { unfold mergeable. cbn [Job_TaskGroups j1].
    eapply Forall_impl; [exact IdemF|]. intros tg G.
    apply (mergeTaskGroup_is_Some_inv (service d) (image d) sc1).
    rewrite G. eauto. }
  destruct (validate_run s1 c j1 sc1 eq_refl Hs1 Hc Hm1)
    as (tgs2 & err2 & w2 & F2 & _ & V2).
  cbv zeta in V2.
  cbn [deployer s1 config set_config set_job service image Job_TaskGroups j1
       Job_Datacenters Job_Constraints] in F2, V2.
  assert (E2 : tgs2 = tgs1) by exact (Forall2_Some_eq _ _ _ _ F2 Idem).
  subst tgs2.
  eexists err1, s1, j1, err2, _, _.
  split; [exact V1|]. split; [reflexivity|]. split; [exact V2|].
  split; [reflexivity|]. cbn [Job_TaskGroups Job_Datacenters Job_Constraints].
  split; [reflexivity|].
  rewrite HD, HP, <- !app_assoc. split; reflexivity.
Qed.

End Validate.

(** ** status, beyond the failure report *)

Section Status.
Context {World : Type} `{api : Orchestration World}.

Abbreviation St := (State World).

Lemma status_after_watches (fuel k : nat) (s : St) c wi w (evs : list Event) :
  jobDeploymentID (deployer s) <> "" ->
  cli (deployer s) = Some c ->
  watches c (jobDeploymentID (deployer s)) k 1 (world s) wi w evs ->
  (k < fuel)%nat ->
  status fuel s
  = status_loop (S (fuel - S k)) (jobDeploymentID (deployer s)) c wi
      (mkState (deployer s) w (trace s ++ evs)).
Proof.
  intros Hne Hc Hw Hk. rewrite (status_eq fuel s c Hc Hne).
  replace fuel with (k + S (fuel - S k))%nat at 1 by lia.
  destruct s as [d w0 t].
  exact (status_loop_watches c _ k 1 w0 wi w evs Hw _ d t).
Qed.

(** X9.  After any number of reads of the status running, the step
    ends at the first read that fails or reads successful: it returns
    the fetch error as it is, or nil, and the query of that read is the
    last thing it does.  No allocations are fetched and nothing is
    printed on these two ways out. *)
Theorem status_ends_at_first_settled_read (fuel k : nat) (s : St) c wi w
    (evs : list Event) :
  let depID := jobDeploymentID (deployer s) in
  depID <> "" ->
  cli (deployer s) = Some c ->
  watches c depID k 1 (world s) wi w evs ->
  (k < fuel)%nat ->
  let t' := trace s ++ evs ++ [EDeploymentInfo depID (query wi)] in
  match Deployments_Info c depID (query wi) w with
  | (inl e, w1) => status fuel s = Done (Some e) (mkState (deployer s) w1 t')
  | (inr (dep, _), w1) =>
      Deployment_Status dep = DeploymentStatusSuccessful ->
      status fuel s = Done None (mkState (deployer s) w1 t')
  end.
Proof.
  intros depID Hne Hc Hw Hk t'.
  rewrite (status_after_watches fuel k s c wi w evs Hne Hc Hw Hk).
  fold depID. rewrite status_loop_step. cbn [world deployer trace].
  destruct (Deployments_Info c depID (query wi) w) as [[e|[dep meta]] w1].
  - unfold t'. now rewrite <- app_assoc.
  - intros R. rewrite R.
    change ((DeploymentStatusSuccessful =? DeploymentStatusRunning)%string)
      with false.
    change ((DeploymentStatusSuccessful =? DeploymentStatusSuccessful)%string)
      with true.
    cbv iota. unfold t'. now rewrite <- app_assoc.
Qed.

Lemma status_loop_forever c depID (fuel : nat) : forall wi (s : St),
  (forall k wi' w evs,
     watches c depID k wi (world s) wi' w evs ->
     exists dep meta w1,
       Deployments_Info c depID (query wi') w = (inr (dep, meta), w1)
       /\ Deployment_Status dep = DeploymentStatusRunning) ->
  status_loop fuel depID c wi s = OutOfFuel.
Proof.
  induction fuel as [|fuel IH]; intros wi s Hall; [reflexivity|].
  rewrite status_loop_step.
  destruct (Hall O wi (world s) []) as (dep & meta & w1 & E & R);
    [constructor|].
  rewrite E. pose proof R as R'. apply String.eqb_eq in R'. rewrite R'.
  apply IH. cbn [world]. intros k wi' w evs Hw.
  apply (Hall (S k) wi' w (EDeploymentInfo depID (query wi) :: evs)).
  econstructor; eauto.
Qed.

(** X10.  The status poll has no cap either: with a deployment
    identifier and a client, if every read answers running, then no
    number of rounds makes the step return. *)
Theorem status_never_returns_while_running (s : St) c :
  let depID := jobDeploymentID (deployer s) in
  depID <> "" ->
  cli (deployer s) = Some c ->
  (forall k wi w evs,
     watches c depID k 1 (world s) wi w evs ->
     exists dep meta w1,
       Deployments_Info c depID (query wi) w = (inr (dep, meta), w1)
       /\ Deployment_Status dep = DeploymentStatusRunning) ->
  forall fuel, status fuel s = OutOfFuel.
Proof.
  intros depID Hne Hc Hall fuel.
  rewrite (status_eq fuel s c Hc Hne). fold depID.
  now apply status_loop_forever.
Qed.

End Status.

(** ** The steps in sequence *)

Section Sequence.
Context {World : Type} `{api : Orchestration World}.

Abbreviation St := (State World).

Lemma reading_not_registering (es : list Event) :
  Forall (fun e => reading e = true) es ->
  Forall (fun e => registering e = false) es.
Proof.
  intros F. eapply Forall_impl; [exact F|].
  intros [] H; (reflexivity || discriminate).
Qed.

(** [loadServiceConfig] always returns; it only reads, and what it
    stores is a job one of the two files gave. *)
Lemma loadServiceConfig_Done (P : Job -> Prop) (s : St) :
  let d := deployer s in
  let fn1 := root d +:+ "/nomad/service/" +:+ service d +:+ ".nomad" in
  let fn2 := root d +:+ "/nomad/system/" +:+ service d +:+ ".nomad" in
  match ParseFile fn1 (world s) with
  | (inr j, _) => P j
  | (inl _, w1) =>
      match ParseFile fn2 w1 with
      | (inr j, _) => P j
      | (inl _, _) => True
      end
  end ->
  exists r s' es,
    loadServiceConfig s = Done r s'
    /\ trace s' = trace s ++ es
    /\ Forall (fun e => reading e = true) es
    /\ (r = None ->
        exists j sc,
          deployer s' = set_job (Some j) d /\ P j
          /\ Services (config d) !! service d = Some sc).
Proof.
  intros d fn1 fn2 HP.
  pose proof (loadServiceConfig_eq s) as E. cbv zeta in E.
  fold d fn1 fn2 in E. rewrite E. clear E.
  assert (C : forall j (w : World) es,
    P j -> Forall (fun e => reading e = true) es ->
    exists r s' es',
      checkServiceConfig (mkState (set_job (Some j) d) w (trace s ++ es))
      = Done r s'
      /\ trace s' = trace s ++ es'
      /\ Forall (fun e => reading e = true) es'
      /\ (r = None ->
          exists j sc,
            deployer s' = set_job (Some j) d /\ P j
            /\ Services (config d) !! service d = Some sc)).
  { intros j w es Pj F. rewrite checkServiceConfig_eq. simpl.
    eexists _, _, es. split; [reflexivity|]. split; [reflexivity|].
    split; [exact F|].
    destruct (Services (config d) !! service d) as [sc|]; [|discriminate].
    intros _. exists j, sc. auto. }
  destruct (ParseFile fn1 (world s)) as [[e1|j] w1].
  - destruct (ParseFile fn2 w1) as [[e2|j] w2].
    + eexists _, _, _. split; [reflexivity|]. split; [reflexivity|].
      split; [repeat constructor | discriminate].
    + apply C; [exact HP | repeat constructor].
  - apply C; [exact HP | repeat constructor].
Qed.

Lemma connect_Done (s : St) :
  exists r s' cfg,
    connect s = Done r s'
    /\ trace s' = trace s ++ [ENewClient cfg]
    /\ (r = None -> exists cl, deployer s' = set_cli (Some cl) (deployer s)).
Proof.
  rewrite connect_eq. cbv zeta.
  destruct (NewClient _ (world s)) as [[e|cl] w];
    eexists _, _, _; (split; [reflexivity|]); (split; [reflexivity|]);
    [discriminate | eauto].
Qed.

Lemma validate_inv (s : St) r s' :
  validate s = Done r s' ->
  exists c,
    cli (deployer s) = Some c
    /\ cli (deployer s') = Some c
    /\ trace s' = trace s ++ [EValidate (job (deployer s'))].
Proof.
  rewrite validate_unfold. cbv zeta.
  destruct (merge (deployer s)) as [[j cfg]|]; [|discriminate].
  destruct (cli (deployer s)) as [c|] eqn:Hc; [|discriminate].
  destruct (Jobs_Validate c (Some j) (world s)) as [err w].
  intros [= <- <-]. exists c. simpl. auto.
Qed.

Lemma plan_inv (s : St) r s' :
  plan s = Done r s' ->
  trace s' = trace s ++ [EPlan (job (deployer s)) false]
  /\ job (deployer s') = job (deployer s)
  /\ config (deployer s') = config (deployer s)
  /\ cli (deployer s') = cli (deployer s).
Proof.
  rewrite plan_eq. cbv zeta.
  destruct (cli (deployer s)) as [c|] eqn:Hc; [|discriminate].
  destruct (Jobs_Plan c (job (deployer s)) false (world s)) as [[e|jp] w];
    intros [= <- <-]; simpl; rewrite ?Hc; repeat split; reflexivity.
Qed.

Lemma plan_no_panic (s : St) c why :
  cli (deployer s) = Some c -> plan s <> Panic why.
Proof.
  intros Hc. rewrite plan_eq. cbv zeta. rewrite Hc.
  destruct (Jobs_Plan c _ false (world s)) as [[e|jp] w]; discriminate.
Qed.

(** X11.  The three steps after [validate] submit the job and never
    write it: whenever plan, register or status returns, the job, the
    datacenter configuration and the client are those the step was
    entered with. *)
Theorem later_steps_keep_job (fuel : nat) (s : St) r s' :
  plan s = Done r s' \/ register fuel s = Done r s' \/ status fuel s = Done r s' ->
  job (deployer s') = job (deployer s)
  /\ config (deployer s') = config (deployer s)
  /\ cli (deployer s') = cli (deployer s).
Proof.
  intros [H|[H|H]].
  - apply plan_inv in H. tauto.
  - apply register_inv in H as (es & _ & _ & J & C & L & _). auto.
  - apply status_inv in H as [-> _]. auto.
Qed.

(** X12.  A registration of a job that is not a service: on a deployer
    that holds no deployment identifier, when the scheduler accepts the
    registration and the first fetch of the evaluation reads complete,
    with no deployment and a type other than service, register returns
    nil after that one fetch, without sleeping, and the status step
    that follows returns nil without a query. *)
Theorem register_then_status_without_deployment (fuel fuel' : nat) (s : St)
    c jr w1 ev w2 :
  let d := deployer s in
  cli d = Some c ->
  jobDeploymentID d = "" ->
  Jobs_EnforceRegister c (job d) (jobModifyIndex d) (world s) = (inr jr, w1) ->
  Evaluations_Info c (EvalID jr) w1 = (inr ev, w2) ->
  Evaluation_DeploymentID ev = "" ->
  Evaluation_Status ev = "complete" ->
  Evaluation_Type ev <> JobTypeService ->
  let s1 := mkState (set_jobEvalID (EvalID jr) d) w2
              (trace s ++ [EEnforceRegister (job d) (jobModifyIndex d);
                           EEvaluationInfo (EvalID jr)]) in
  register (S fuel) s = Done None s1
  /\ status fuel' s1 = Done None s1.
Proof.
  intros d Hc Hd Hr He D C T s1. split.
  - rewrite (register_eq (S fuel) s c Hc). cbv zeta. fold d. rewrite Hr.
    rewrite (getDeploymentID_polls O (S fuel) _ c w1 (inr ev) w2 None
               (set_jobEvalID (EvalID jr) d));
      [ | exact Hc | lia | constructor | exact He | now constructor ].
    cbn [deployer trace waits jobEvalID set_jobEvalID].
    unfold s1. now rewrite <- app_assoc.
  - rewrite status_unfold. unfold s1. cbn [deployer jobDeploymentID set_jobEvalID].
    fold d. now rewrite Hd.
Qed.

Lemma load_reads_any (s : St) :
  let d := deployer s in
  let fn1 := root d +:+ "/nomad/service/" +:+ service d +:+ ".nomad" in
  let fn2 := root d +:+ "/nomad/system/" +:+ service d +:+ ".nomad" in
  match ParseFile fn1 (world s) with
  | (inr j, _) => True
  | (inl _, w1) =>
      match ParseFile fn2 w1 with
      | (inr j, _) => True
      | (inl _, _) => True
      end
  end.
Proof.
  intros d fn1 fn2.
  destruct (ParseFile fn1 (world s)) as [[e1|j] w1]; [|exact I].
  destruct (ParseFile fn2 w1) as [[e2|j] w2]; exact I.
Qed.

(** X13.  What a run of [Go] does to the cluster.  Whenever [Go]
    returns, either it returned an error and made no registration call
    at all, or it made exactly one, and then the calls were: reads of
    job files and the client set-up, then Validate, Plan and
    EnforceRegister one after the other, all three with the job the
    deployer holds at the end and the last with the modify index it
    holds at the end, then nothing but polling.  So a nil result means
    one registration, of the job that was validated and planned. *)
Theorem Go_registers_once_what_it_planned (fuel : nat) (s : St) r s' :
  Go fuel s = Done r s' ->
  exists es,
    trace s' = trace s ++ es
    /\ ((r <> None /\ Forall (fun e => registering e = false) es)
        \/ exists pre post,
             es = pre
                  ++ [EValidate (job (deployer s'));
                      EPlan (job (deployer s')) false;
                      EEnforceRegister (job (deployer s'))
                        (jobModifyIndex (deployer s'))]
                  ++ post
             /\ Forall (fun e => reading e = true) pre
             /\ Forall (fun e => polling e = true) post).
Proof.
  intros H. unfold Go in H. cbv zeta in H.
  destruct (loadServiceConfig_Done (fun _ => True) s (load_reads_any s))
    as (r1 & s1 & es1 & L & T1 & F1 & _).
  rewrite runSteps_cons, L in H. destruct r1 as [e1|].
  { injection H as <- <-. exists es1. split; [exact T1|]. left.
    split; [discriminate | now apply reading_not_registering]. }
  destruct (connect_Done s1) as (r2 & s2 & cfg & C & T2 & _).
  rewrite runSteps_cons, C in H.
  assert (Fpre : Forall (fun e => reading e = true) (es1 ++ [ENewClient cfg])).
  { apply Forall_app. split; [exact F1 | repeat constructor]. }
  destruct r2 as [e2|].
  { injection H as <- <-. exists (es1 ++ [ENewClient cfg]).
    split; [now rewrite T2, T1, <- app_assoc|]. left.
    split; [discriminate | now apply reading_not_registering]. }
  rewrite runSteps_cons in H.
  destruct (validate s2) as [r3 s3| |] eqn:V; try discriminate.
  apply validate_inv in V as (c & _ & _ & T3).
  destruct r3 as [e3|].
  { injection H as <- <-.
    exists ((es1 ++ [ENewClient cfg]) ++ [EValidate (job (deployer s3))]).
    split; [now rewrite T3, T2, T1, <- !app_assoc|]. left.
    split; [discriminate|]. apply Forall_app.
    split; [now apply reading_not_registering | repeat constructor]. }
  rewrite runSteps_cons in H.
  destruct (plan s3) as [r4 s4| |] eqn:P; try discriminate.
  apply plan_inv in P as (T4 & J4 & _ & _).
  destruct r4 as [e4|].
  { injection H as <- <-.
    exists ((es1 ++ [ENewClient cfg])
            ++ [EValidate (job (deployer s3)); EPlan (job (deployer s3)) false]).
    split; [now rewrite T4, T3, T2, T1, <- !app_assoc|]. left.
    split; [discriminate|]. apply Forall_app.
    split; [now apply reading_not_registering | repeat constructor]. }
  rewrite runSteps_cons in H.
  destruct (register fuel s4) as [r5 s5| |] eqn:R; try discriminate.
  apply register_inv in R. cbv zeta in R.
  destruct R as (es5 & T5 & F5 & J5 & _ & _ & I5).
  assert (Shape : forall post,
    (((((trace s ++ es1) ++ [ENewClient cfg])
        ++ [EValidate (job (deployer s3))])
       ++ [EPlan (job (deployer s3)) false])
      ++ EEnforceRegister (job (deployer s4)) (jobModifyIndex (deployer s4))
           :: es5) ++ post
    = trace s
      ++ (es1 ++ [ENewClient cfg])
         ++ [EValidate (job (deployer s5)); EPlan (job (deployer s5)) false;
             EEnforceRegister (job (deployer s5)) (jobModifyIndex (deployer s5))]
         ++ es5 ++ post).
  { intros post. rewrite J5, I5, J4. rewrite <- !app_assoc. reflexivity. }
  destruct r5 as [e5|].
  { injection H as <- <-. eexists. split.
    - rewrite T5, T4, T3, T2, T1.
      rewrite <- (app_nil_r (_ ++ EEnforceRegister _ _ :: es5)).
      rewrite Shape. reflexivity.
    - right. exists (es1 ++ [ENewClient cfg]), (es5 ++ []).
      split; [reflexivity|]. split; [exact Fpre|].
      now rewrite app_nil_r. }
  rewrite runSteps_last in H.
  apply status_inv in H as (D & es6 & T6 & F6).
  eexists. split.
  - rewrite T6, T5, T4, T3, T2, T1, Shape. reflexivity.
  - right. exists (es1 ++ [ENewClient cfg]), (es5 ++ es6). rewrite D.
    split; [reflexivity|]. split; [exact Fpre|].
    apply Forall_app. auto.
Qed.


End Sequence.

(** ** Runs of the added properties on the scripted scheduler *)

Lemma validate_keeps_shape_witness :
  let s := Sim.loaded Sim.webJob (Sim.webConfig 3 "app" "" "r1") Sim.world0 in
  exists r s' j',
    validate s = Done r s'
    /\ job (deployer s') = Some j'
    /\ Job_Region j' = Some "r1"
    /\ Job_Datacenters j' = ["dc1"]
    /\ TaskGroup_Name <$> Job_TaskGroups j' = [Some "web"; Some "cache"].
Proof.
  intros s.
  destruct (validate_keeps_shape s Sim.client Sim.webJob
              (Sim.webConfig 3 "app" "" "r1") eq_refl eq_refl eq_refl
              Sim_webJob_mergeable)
    as (r & s' & j' & V & J & R & D & F).
  exists r, s', j'. split; [exact V|]. split; [exact J|].
  split; [exact R|]. split; [exact D|].
  simpl in F.
  apply Forall2_cons_inv_l in F as (tg1 & k1 & (N1 & _) & F & ->).
  apply Forall2_cons_inv_l in F as (tg2 & k2 & (N2 & _) & F & ->).
  apply Forall2_nil_inv_l in F as ->.
  simpl. now rewrite N1, N2.
Defined.

Lemma validate_config_frame_witness :
  let s := Sim.loaded Sim.webJob (Sim.webConfig 3 "app" "" "r1") Sim.world0 in
  exists r s' sc',
    validate s = Done r s'
    /\ Services (config (deployer s')) !! "web" = Some sc'
    /\ set_Image "web:static" sc' = Sim.webConfig 3 "app" "" "r1".
Proof.
  intros s.
  destruct (validate_config_frame s Sim.client Sim.webJob
              (Sim.webConfig 3 "app" "" "r1") eq_refl eq_refl eq_refl
              Sim_webJob_mergeable)
    as (r & s' & sc' & V & _ & _ & _ & L & _ & I & _).
  exists r, s', sc'. split; [exact V|]. split; [exact L | exact I].
Defined.

Lemma validate_twice_appends_again_witness :
  let s := Sim.loaded Sim.webJob (Sim.webConfig 3 "app" "" "") Sim.world0 in
  exists r1 s1 r2 s2 j2,
    validate s = Done r1 s1
    /\ validate s1 = Done r2 s2
    /\ job (deployer s2) = Some j2
    /\ Job_Datacenters j2 = ["dc1"; "dc1"]
    /\ Job_Constraints j2
       = [NewConstraint "${meta.hostgroup}" "=" "app";
          NewConstraint "${meta.hostgroup}" "=" "app"].
Proof.
  intros s.
  destruct (validate_twice_appends_again s Sim.client Sim.webJob
              (Sim.webConfig 3 "app" "" "") eq_refl eq_refl eq_refl
              Sim_webJob_mergeable)
    as (r1 & s1 & j1 & r2 & s2 & j2 & V1 & _ & V2 & J2 & _ & D & C).
  exists r1, s1, r2, s2, j2. auto.
Defined.

Lemma status_ends_at_first_settled_read_witness :
  status 3 (Sim.deployed Sim.world0)
  = Done None
      (mkState (deployer (Sim.deployed Sim.world0))
         (snd (Sim.deploymentInfo (snd (Sim.deploymentInfo Sim.world0))))
         [EDeploymentInfo "dep-1" (query 1);
          EDeploymentInfo "dep-1" (query 10);
          EDeploymentInfo "dep-1" (query 11)]).
Proof.
  pose (w1 := snd (Sim.deploymentInfo Sim.world0)).
  pose (w2 := snd (Sim.deploymentInfo w1)).
  assert (W : watches Sim.client "dep-1" 2 1 Sim.world0 11 w2
                [EDeploymentInfo "dep-1" (query 1);
                 EDeploymentInfo "dep-1" (query 10)]).
  { eapply watches_S; [reflexivity | reflexivity |].
    eapply watches_S; [reflexivity | reflexivity | apply watches_O]. }
  exact (status_ends_at_first_settled_read 3 2 (Sim.deployed Sim.world0)
           Sim.client 11 w2 _ ltac:(discriminate) eq_refl W ltac:(lia)
           eq_refl).
Defined.

Lemma Sim_running_watches c id k wi wi' w evs :
  watches c id k wi Sim.runningWorld wi' w evs -> w = Sim.runningWorld.
Proof.
  remember Sim.runningWorld as w0 eqn:E.
  induction 1 as [|k wi w dep meta w1 wi' w' evs I _ _ IH].
  - reflexivity.
  - subst w. simpl in I. injection I as _ _ <-. now apply IH.
Qed.

Lemma status_never_returns_while_running_witness :
  status 1000 (Sim.deployed Sim.runningWorld) = OutOfFuel.
Proof.
  apply (status_never_returns_while_running (Sim.deployed Sim.runningWorld)
           Sim.client ltac:(discriminate) eq_refl).
  intros k wi w evs Hw. apply Sim_running_watches in Hw. subst w.
  eexists _, _, _. split; reflexivity.
Defined.

Lemma later_steps_keep_job_witness :
  exists s',
    plan (Sim.loaded Sim.webJob (Sim.webConfig 3 "app" "" "r1") Sim.world0)
    = Done None s'
    /\ job (deployer s') = Some Sim.webJob
    /\ cli (deployer s') = Some Sim.client.
Proof.
  pose (s := Sim.loaded Sim.webJob (Sim.webConfig 3 "app" "" "r1") Sim.world0).
  destruct (plan s) as [r s'| |] eqn:P;
    [ | vm_compute in P; discriminate | vm_compute in P; discriminate ].
  assert (R : r = None) by (vm_compute in P; now injection P as <- _).
  subst r. exists s'. split; [exact P|].
  destruct (later_steps_keep_job 0 s None s' (or_introl P)) as (J & _ & C).
  split; [exact J | exact C].
Defined.

Lemma register_then_status_without_deployment_witness :
  exists s1,
    register 1 (Sim.planned Sim.batchWorld) = Done None s1
    /\ status 0 s1 = Done None s1
    /\ trace s1 = [EEnforceRegister (Some Sim.webJob) 7;
                   EEvaluationInfo "eval-1"].
Proof.
  pose (w1 := snd (Sim.enforceRegister (Some Sim.webJob) 7 Sim.batchWorld)).
  assert (R : Jobs_EnforceRegister Sim.client (Some Sim.webJob) 7 Sim.batchWorld
              = (inr {| EvalID := "eval-1" |}, w1)) by reflexivity.
  assert (E : Evaluations_Info Sim.client "eval-1" w1
              = (inr Sim.batchEval, w1)) by reflexivity.
  destruct (register_then_status_without_deployment 0 0
              (Sim.planned Sim.batchWorld) Sim.client _ w1 Sim.batchEval w1
              eq_refl eq_refl R E eq_refl eq_refl ltac:(discriminate))
    as [H1 H2].
  eexists. split; [exact H1|]. split; [exact H2 | reflexivity].
Defined.

Lemma Go_registers_once_what_it_planned_witness :
  match Go 5 (Sim.start (Sim.webConfig 3 "app" "app1" "r1") Sim.world0) with
  | Done r s' =>
      exists pre post,
        trace s'
        = pre
          ++ [EValidate (job (deployer s')); EPlan (job (deployer s')) false;
              EEnforceRegister (job (deployer s')) 7]
          ++ post
        /\ Forall (fun e => reading e = true) pre
        /\ Forall (fun e => polling e = true) post
  | _ => False
  end.
Proof.
  destruct (Go 5 (Sim.start (Sim.webConfig 3 "app" "app1" "r1") Sim.world0))
    as [r s'| |] eqn:E.
  - assert (R : r = None /\ jobModifyIndex (deployer s') = 7).
    { vm_compute in E. injection E as <- <-. split; reflexivity. }
    destruct R as [-> I].
    destruct (Go_registers_once_what_it_planned _ _ _ _ E)
      as (es & T & [[N _]|(pre & post & -> & Fpre & Fpost)]);
      [congruence|].
    exists pre, post. rewrite T, I. simpl. auto.
  - vm_compute in E. discriminate.
  - vm_compute in E. discriminate.
Defined.

